(** * noise-maker: the colored-noise generator and the [useNoiseAudio] hook

    A shallow embedding of [src/types.ts] and [src/hooks/useNoiseAudio.ts],
    of the state handlers of [src/App.tsx], and of the [draw] loop of the
    [Visualizer] component with its reads of the analyser.

    Numbers.  A JavaScript number is modelled as an exact rational [Q]: a
    decimal literal of the source denotes itself, and [+], [-], [*], [/] are
    the field operations.  The rounding of IEEE doubles and of the
    [Float32Array] that backs an [AudioBuffer] is not modelled.

    Effects.  [Math.random] is an oracle read through a call counter that is
    threaded through the generator.  The Web Audio objects are external: a
    call on one of them is recorded, in program order, in a trace of [Call]s,
    and what the hook reads from them ([ctx.currentTime], [ctx.state],
    [gain.gain.value]) comes from an [Env] supplied with every run of the
    effects.  React's [useRef] cells are the fields of [Refs]; React's
    [useEffect] runs an effect on mount and after every render in which one
    of its dependencies changed. *)

From Stdlib Require Import QArith Qabs Qround Lqa Lia String.
From stdpp Require Import base option list.

Open Scope Q_scope.

(** ** src/types.ts *)

Inductive NoiseColor : Set := WHITE | PINK | BROWN.

Record AudioState : Set := mkAudioState {
  isPlaying : bool;
  volume : Q;            (* 0.0 to 1.0 *)
  noiseColor : NoiseColor;
  filterFrequency : Q;   (* 20Hz to 20000Hz *)
  filterQ : Q            (* Resonance *)
}.

(** [Object.values(NoiseColor)], in declaration order. *)
Definition NoiseColor_values : list NoiseColor := [WHITE; PINK; BROWN].

Definition NoiseColor_eqb (a b : NoiseColor) : bool :=
  match a, b with
  | WHITE, WHITE | PINK, PINK | BROWN, BROWN => true
  | _, _ => false
  end.

(** ** The pseudo-random source *)

(** [draws g n] is what the [n]-th call of [Math.random()] returns (a number
    of [[0, 1)] in a browser); [next g] counts the calls made so far. *)
Record Rng : Type := mkRng { draws : nat -> Q; next : nat }.

Definition Math_random (g : Rng) : Q * Rng :=
  (draws g (next g), mkRng (draws g) (S (next g))).

(** ** Audio buffers *)

Record AudioContext : Set := mkAudioContext { sampleRate : N }.

Record AudioBuffer : Set := mkAudioBuffer {
  numberOfChannels : N;
  bufLength : N;
  bufSampleRate : N;
  channelData : list Q   (* getChannelData(0) *)
}.

(** [ctx.createBuffer(channels, length, rate)]: the samples start at zero. *)
Definition createBuffer (channels len rate : N) : AudioBuffer :=
  mkAudioBuffer channels len rate (replicate (N.to_nat len) 0).

(** [output[i]] read from a typed array (only ever read in range). *)
Definition get (output : list Q) (i : nat) : Q := default 0 (output !! i).

(** [for (let i = start; i < start + n; i++) s = body(i, s)], with [n] the
    number of iterations left; a loop [for (let i = 0; i < size; i++)] makes
    [N.to_nat size] of them. *)
Fixpoint for_loop {St : Type} (n i : nat) (body : nat -> St -> St) (s : St) : St :=
  match n with
  | O => s
  | S n' => for_loop n' (S i) body (body i s)
  end.

(** ** createNoiseBuffer *)

(** WHITE: [output[i] = Math.random() * 2 - 1]. *)
Definition white_body (i : nat) (s : Rng * list Q) : Rng * list Q :=
  let '(g, output) := s in
  let '(r, g) := Math_random g in
  (g, <[i := r * 2 - 1]> output).

(** The loop-carried variables of the PINK branch. *)
Record PinkState : Set := mkPink { b0 : Q; b1 : Q; b2 : Q; b3 : Q; b4 : Q; b5 : Q; b6 : Q }.

Definition pink_init : PinkState := mkPink 0 0 0 0 0 0 0.

Definition pink_body (i : nat) (s : PinkState * Rng * list Q) : PinkState * Rng * list Q :=
  let '(st, g, output) := s in
  let '(r, g) := Math_random g in
  let white := r * 2 - 1 in
  let b0 := 0.99886 * b0 st + white * 0.0555179 in
  let b1 := 0.99332 * b1 st + white * 0.0750759 in
  let b2 := 0.96900 * b2 st + white * 0.1538520 in
  let b3 := 0.86650 * b3 st + white * 0.3104856 in
  let b4 := 0.55000 * b4 st + white * 0.5329522 in
  let b5 := -0.7616 * b5 st - white * 0.0168980 in
  let output := <[i := b0 + b1 + b2 + b3 + b4 + b5 + b6 st + white * 0.5362]> output in
  let output := <[i := get output i * 0.11]> output in   (* Compensate for gain *)
  let b6 := white * 0.115926 in
  (mkPink b0 b1 b2 b3 b4 b5 b6, g, output).

Definition brown_body (i : nat) (s : Q * Rng * list Q) : Q * Rng * list Q :=
  let '(lastOut, g, output) := s in
  let '(r, g) := Math_random g in
  let white := r * 2 - 1 in
  let output := <[i := (lastOut + 0.02 * white) / 1.02]> output in
  let lastOut := get output i in
  let output := <[i := get output i * 3.5]> output in   (* Compensate for gain *)
  (lastOut, g, output).

Definition createNoiseBuffer (ctx : AudioContext) (type : NoiseColor) (g : Rng)
  : AudioBuffer * Rng :=
  let bufferSize := (sampleRate ctx * 5)%N in             (* 5 seconds loop *)
  let buffer := createBuffer 1 bufferSize (sampleRate ctx) in
  let output := channelData buffer in
  let '(g, output) :=
    match type with
    | WHITE => for_loop (N.to_nat bufferSize) 0 white_body (g, output)
    | PINK =>
        let '(_, g, output) := for_loop (N.to_nat bufferSize) 0 pink_body (pink_init, g, output) in
        (g, output)
    | BROWN =>
        let '(_, g, output) := for_loop (N.to_nat bufferSize) 0 brown_body (0, g, output) in
        (g, output)
    end in
  (mkAudioBuffer (numberOfChannels buffer) (bufLength buffer) (bufSampleRate buffer) output, g).

(** ** The audio graph as the hook sees it *)

(** [window]: each field is the context its constructor builds, when the
    browser has that constructor. *)
Record Window : Set := mkWindow {
  window_AudioContext : option AudioContext;
  window_webkitAudioContext : option AudioContext
}.

Inductive GainNode : Set := mkGainNode.
Inductive BiquadFilterType : Set := lowpass.
Record BiquadFilterNode : Set := mkFilter { filter_type : BiquadFilterType }.
Record AnalyserNode : Set := mkAnalyser { fftSize : nat }.
Record AudioBufferSourceNode : Set := mkSource { buffer : AudioBuffer; loop : bool }.

Definition frequencyBinCount (a : AnalyserNode) : nat := (fftSize a / 2)%nat.

Inductive AudioParam : Set := gain_gain | filter_frequency | filter_Q.

(** One constructor per method the hook calls on a Web Audio object. *)
Inductive Call : Set :=
| new_AudioContext
| createGain
| createBiquadFilter
| createAnalyser
| filter_connect_gain
| gain_connect_analyser
| analyser_connect_destination
| source_stop
| source_disconnect
| ctx_resume
| createBufferSource
| source_connect_filter
| source_start
| cancelScheduledValues (p : AudioParam) (startTime : Q)
| setValueAtTime (p : AudioParam) (value startTime : Q)
| linearRampToValueAtTime (p : AudioParam) (value endTime : Q)
| setTargetAtTime (p : AudioParam) (target startTime timeConstant : Q).

(** What the hook reads from the audio objects when its effects run. *)
Record Env : Set := mkEnv {
  currentTime : Q;        (* ctx.currentTime *)
  ctx_suspended : bool;   (* ctx.state === 'suspended' *)
  gain_value : Q          (* gain.gain.value *)
}.

(** The [useRef] cells. *)
Record Refs : Set := mkRefs {
  audioCtxRef : option AudioContext;
  sourceNodeRef : option AudioBufferSourceNode;
  gainNodeRef : option GainNode;
  filterNodeRef : option BiquadFilterNode;
  analyserNodeRef : option AnalyserNode;
  buffersRef : NoiseColor -> option AudioBuffer
}.

Definition refs_initial : Refs :=
  mkRefs None None None None None (fun _ => None).

Definition set_sourceNodeRef (r : Refs) (s : option AudioBufferSourceNode) : Refs :=
  mkRefs (audioCtxRef r) s (gainNodeRef r) (filterNodeRef r) (analyserNodeRef r) (buffersRef r).

(** [buffers[color] = b] *)
Definition set_buffer (buffers : NoiseColor -> option AudioBuffer) (color : NoiseColor)
  (b : AudioBuffer) : NoiseColor -> option AudioBuffer :=
  fun c => if NoiseColor_eqb c color then Some b else buffers c.

(** ** useNoiseAudio: the three effects *)

(** [window.AudioContext || window.webkitAudioContext] *)
Definition AudioContextClass (w : Window) : option AudioContext :=
  match window_AudioContext w with
  | Some c => Some c
  | None => window_webkitAudioContext w
  end.

(** Initialize AudioContext (dependencies [[]]: runs on mount only). *)
Definition init_effect (w : Window) (g : Rng) (r : Refs) : Refs * list Call * Rng :=
  match AudioContextClass w with
  | None => (r, [], g)
  | Some ctx =>
      let gain := mkGainNode in
      let filter := mkFilter lowpass in
      let analyser := mkAnalyser 2048 in
      (* Pre-generate buffers *)
      let '(buffers, g) :=
        fold_left (fun (acc : (NoiseColor -> option AudioBuffer) * Rng) color =>
                     let '(b, g) := createNoiseBuffer ctx color (snd acc) in
                     (set_buffer (fst acc) color b, g))
                  NoiseColor_values (buffersRef r, g) in
      (mkRefs (Some ctx) (sourceNodeRef r) (Some gain) (Some filter) (Some analyser) buffers,
       [new_AudioContext; createGain; createBiquadFilter; createAnalyser;
        filter_connect_gain; gain_connect_analyser; analyser_connect_destination],
       g)
  end.

(** Handle Play/Stop and Color Change (dependencies
    [[state.isPlaying, state.noiseColor]]). *)
Definition source_effect (state : AudioState) (env : Env) (r : Refs) : Refs * list Call :=
  match audioCtxRef r, gainNodeRef r, filterNodeRef r with
  | Some ctx, Some gain, Some filter =>
      (* If stopping or changing color, stop existing source *)
      let '(r, stopped) :=
        match sourceNodeRef r with
        | Some _ => (set_sourceNodeRef r None, [source_stop; source_disconnect])
        | None => (r, [])
        end in
      if isPlaying state then
        (* Resume context if suspended (browser policy) *)
        let resumed := if ctx_suspended env then [ctx_resume] else [] in
        match buffersRef r (noiseColor state) with
        | Some buffer =>
            let source := mkSource buffer true in
            (set_sourceNodeRef r (Some source),
             stopped ++ resumed ++
             [createBufferSource; source_connect_filter; source_start;
              (* Ramp up volume to avoid pop *)
              cancelScheduledValues gain_gain (currentTime env);
              setValueAtTime gain_gain 0 (currentTime env);
              linearRampToValueAtTime gain_gain (volume state) (currentTime env + 0.1)])
        | None => (r, stopped ++ resumed)
        end
      else
        (* Ramp down if stopping *)
        (r, stopped ++
            [cancelScheduledValues gain_gain (currentTime env);
             setValueAtTime gain_gain (gain_value env) (currentTime env);
             linearRampToValueAtTime gain_gain 0 (currentTime env + 0.1)])
  | _, _, _ => (r, [])
  end.

(** Handle Parameter Changes (Volume, Filter) without restarting source
    (dependencies [[state.volume, state.filterFrequency, state.filterQ,
    state.isPlaying]]). *)
Definition params_effect (state : AudioState) (env : Env) (r : Refs) : list Call :=
  match audioCtxRef r, gainNodeRef r, filterNodeRef r with
  | Some ctx, Some gain, Some filter =>
      (if isPlaying state
       then [setTargetAtTime gain_gain (volume state) (currentTime env) 0.1]
       else []) ++
      [setTargetAtTime filter_frequency (filterFrequency state) (currentTime env) 0.1;
       setTargetAtTime filter_Q (filterQ state) (currentTime env) 0.1]
  | _, _, _ => []
  end.

(** ** useNoiseAudio under React *)

(** Whether a dependency array changed between two renders.  React compares
    the entries with [Object.is]; on numbers that is equality of the values. *)
Definition source_deps_changed (prev state : AudioState) : bool :=
  negb (Bool.eqb (isPlaying prev) (isPlaying state))
  || negb (NoiseColor_eqb (noiseColor prev) (noiseColor state)).

Definition params_deps_changed (prev state : AudioState) : bool :=
  negb (Qeq_bool (volume prev) (volume state))
  || negb (Qeq_bool (filterFrequency prev) (filterFrequency state))
  || negb (Qeq_bool (filterQ prev) (filterQ state))
  || negb (Bool.eqb (isPlaying prev) (isPlaying state)).

(** The value the hook returns, read during the render:
    [{ analyserNode: analyserNodeRef.current }]. *)
Definition useNoiseAudio_result (r : Refs) : option AnalyserNode := analyserNodeRef r.

(** First render: every effect runs, in the order of declaration. *)
Definition mount (w : Window) (g : Rng) (state : AudioState) (env : Env)
  : Refs * list Call * Rng :=
  let '(r, t0, g) := init_effect w g refs_initial in
  let '(r, t1) := source_effect state env r in
  let t2 := params_effect state env r in
  (r, t0 ++ t1 ++ t2, g).

(** A later render with state [state], the previous render having had [prev]. *)
Definition update (prev state : AudioState) (env : Env) (r : Refs) : Refs * list Call :=
  let '(r, t1) :=
    if source_deps_changed prev state then source_effect state env r else (r, []) in
  let t2 := if params_deps_changed prev state then params_effect state env r else [] in
  (r, t1 ++ t2).

(** [useNoiseAudio(state)] at one render: [prev] is the state of the render
    before, [None] at the first render (whose refs are [refs_initial]).  The
    result pairs what the hook returns, read during the render and so before
    this render's effects, with the refs, the calls and the generator the
    effects leave. *)
Definition useNoiseAudio (w : Window) (prev : option AudioState) (state : AudioState)
  (env : Env) (g : Rng) (r : Refs) : option AnalyserNode * (Refs * list Call * Rng) :=
  (useNoiseAudio_result r,
   match prev with
   | None => mount w g state env
   | Some p => let '(r, t) := update p state env r in (r, t, g)
   end).

(** A sequence of renders; the trace is the concatenation of theirs. *)
Fixpoint updates (prev : AudioState) (r : Refs) (inputs : list (AudioState * Env))
  : AudioState * Refs * list Call :=
  match inputs with
  | [] => (prev, r, [])
  | (state, env) :: rest =>
      let '(r1, t1) := update prev state env r in
      let '(last, r2, t2) := updates state r1 rest in
      (last, r2, t1 ++ t2)
  end.

(** ** Visualizer: one animation frame *)

Inductive FillStyle : Set :=
| fade_fill                                             (* 'rgba(2, 6, 23, 0.2)' *)
| gradient_fill (x0 y0 x1 y1 : Q) (primaryColor : string).

(** The calls [draw] makes, in program order. *)
Inductive DrawCall : Set :=
| requestAnimationFrame_draw
| getByteFrequencyData
| fillRect (style : FillStyle) (x y w h : Q).

(** [dataArray[i]] as a number; [dataArray] is a [Uint8Array]. *)
Definition get_byte (dataArray : list N) (i : nat) : Q :=
  inject_Z (Z.of_N (default 0%N (dataArray !! i))).

(** The body of the loop over the bins: [x] and the calls made so far. *)
Definition bar_body (canvas_height barWidth : Q) (dataArray : list N) (primaryColor : string)
  (i : nat) (s : Q * list DrawCall) : Q * list DrawCall :=
  let '(x, calls) := s in
  let barHeight := get_byte dataArray i / 1.5 in   (* Scale down slightly *)
  let gradient :=
    gradient_fill 0 (canvas_height - barHeight) 0 canvas_height primaryColor in
  (* Draw mirrored bars for aesthetics *)
  let calls :=
    calls ++ [fillRect gradient x (canvas_height / 2 - barHeight / 2) barWidth barHeight] in
  (x + (barWidth + 1), calls).

(** [draw()] once, on a canvas of the given size; [dataArray] is what
    [getByteFrequencyData] has just written, [bufferLength] the analyser's
    [frequencyBinCount]. *)
Definition draw (canvas_width canvas_height : Q) (bufferLength : nat) (dataArray : list N)
  (isPlaying : bool) (primaryColor : string) : list DrawCall :=
  [requestAnimationFrame_draw; getByteFrequencyData;
   (* Clear with fade effect *)
   fillRect fade_fill 0 0 canvas_width canvas_height] ++
  if negb isPlaying then []
  else
    let barWidth := (canvas_width / inject_Z (Z.of_nat bufferLength)) * 2.5 in
    snd (for_loop bufferLength 0
           (bar_body canvas_height barWidth dataArray primaryColor) (0, [])).

(** ** Visualizer: the effect *)

(** The canvas behind [canvasRef]: its size, and whether [getContext('2d')]
    gives a context. *)
Record Canvas : Set := mkCanvas { cv_width : Q; cv_height : Q; cv_context2d : bool }.

(** The effect of [Visualizer] (dependencies
    [[analyser, isPlaying, primaryColor]]) until its cleanup.  It returns at
    once without a canvas, without an analyser or without a 2d context;
    otherwise [draw] runs once at once and once more for each of the
    [callbacks] animation frames that fire.  [spectrum k] is what
    [getByteFrequencyData] writes into [dataArray] in run [k]. *)
Definition Visualizer_effect (canvas : option Canvas) (analyser : option AnalyserNode)
  (spectrum : nat -> list N) (isPlaying : bool) (primaryColor : string) (callbacks : nat)
  : list DrawCall :=
  match canvas, analyser with
  | Some cv, Some a =>
      if cv_context2d cv then
        let bufferLength := frequencyBinCount a in
        concat ((fun k => draw (cv_width cv) (cv_height cv) bufferLength (spectrum k)
                               isPlaying primaryColor) <$> seq 0 (S callbacks))
      else []
  | _, _ => []
  end.

(** ** src/App.tsx: the state and its handlers *)

Record GeminiMoodConfig : Set := mkMood {
  config_noiseColor : NoiseColor;
  config_volume : Q;
  config_filterFrequency : Q;
  config_description : string
}.

Definition Math_floor (x : Q) : Q := inject_Z (Qfloor x).

Definition Math_max (a b : Q) : Q := if Qle_bool a b then b else a.

Definition Math_min (a b : Q) : Q := if Qle_bool a b then a else b.

(** The argument of [useState]. *)
Definition App_initialState : AudioState := mkAudioState false 0.5 PINK 5000 1.

Definition togglePlay (prev : AudioState) : AudioState :=
  mkAudioState (negb (isPlaying prev)) (volume prev) (noiseColor prev)
               (filterFrequency prev) (filterQ prev).

Definition handleColorChange (color : NoiseColor) (prev : AudioState) : AudioState :=
  mkAudioState (isPlaying prev) (volume prev) color (filterFrequency prev) (filterQ prev).

(** [value] is [parseFloat(e.target.value)], the slider's number. *)
Definition handleVolumeChange (value : Q) (prev : AudioState) : AudioState :=
  mkAudioState (isPlaying prev) value (noiseColor prev) (filterFrequency prev) (filterQ prev).

Definition handleFilterChange (value : Q) (prev : AudioState) : AudioState :=
  (* Exponential slider feel *)
  let val := value in
  (* Map 0-100 to 100Hz-20000Hz roughly *)
  let freq := Math_floor (val ^ 3 / 10000 * 19900 + 100) in
  mkAudioState (isPlaying prev) (volume prev) (noiseColor prev)
               (Math_max 50 (Math_min 20000 freq)) (filterQ prev).

Definition handleGeminiConfig (config : GeminiMoodConfig) (prev : AudioState) : AudioState :=
  mkAudioState true (config_volume config) (config_noiseColor config)
               (config_filterFrequency config) (filterQ prev).

(** Determine accent color based on noise type *)
Definition accentColor (audioState : AudioState) : string :=
  match noiseColor audioState with
  | BROWN => "#a52a2a"
  | PINK => "#f472b6"
  | WHITE => "#38bdf8"
  end.

(** A handler runs [setAudioState(handler)]; React renders [App] again with
    the new state, and the hook's effects run against the refs. *)
Definition App_event (handler : AudioState -> AudioState) (prev : AudioState) (env : Env)
  (r : Refs) : AudioState * (Refs * list Call) :=
  (handler prev, update prev (handler prev) env r).

(** * Specification vocabulary *)

(** ** The generator, sample by sample *)

(** The white value drawn in iteration [m] of a loop entered with [g]. *)
Definition white_at (g : Rng) (m : nat) : Q := draws g (next g + m) * 2 - 1.

(** [lastOut] of the BROWN loop after [m] iterations. *)
Fixpoint brown_lastOut (g : Rng) (m : nat) : Q :=
  match m with
  | O => 0
  | S m' => (brown_lastOut g m' + 0.02 * white_at g m') / 1.02
  end.

(** The variables of the PINK loop after [m] iterations. *)
Fixpoint pink_state (g : Rng) (m : nat) : PinkState :=
  match m with
  | O => pink_init
  | S m' =>
      let st := pink_state g m' in
      let white := white_at g m' in
      mkPink (0.99886 * b0 st + white * 0.0555179)
             (0.99332 * b1 st + white * 0.0750759)
             (0.96900 * b2 st + white * 0.1538520)
             (0.86650 * b3 st + white * 0.3104856)
             (0.55000 * b4 st + white * 0.5329522)
             (-0.7616 * b5 st - white * 0.0168980)
             (white * 0.115926)
  end.

(** The sample each branch stores at index [m]. *)
Definition white_sample (g : Rng) (m : nat) : Q := white_at g m.

Definition brown_sample (g : Rng) (m : nat) : Q := brown_lastOut g (S m) * 3.5.

Definition pink_sample (g : Rng) (m : nat) : Q :=
  let st := pink_state g m in
  let st' := pink_state g (S m) in
  (b0 st' + b1 st' + b2 st' + b3 st' + b4 st' + b5 st' + b6 st + white_at g m * 0.5362) * 0.11.

Definition sample_of (type : NoiseColor) : Rng -> nat -> Q :=
  match type with
  | WHITE => white_sample
  | PINK => pink_sample
  | BROWN => brown_sample
  end.

(** The generator after [n] more calls of [Math.random]. *)
Definition advance (g : Rng) (n : nat) : Rng := mkRng (draws g) (next g + n).

(** Every draw is a number of [[0, 1]], so every white value one of [[-1, 1]]. *)
Definition draws_in_range (g : Rng) : Prop := forall n, 0 <= draws g n <= 1.

(** What a loop has stored once it has run [j] iterations over an array of
    [size] samples: the first [j] entries are the samples of the branch. *)
Definition filled (sample : nat -> Q) (size j : nat) (output : list Q) : Prop :=
  length output = size /\ forall m, (m < j)%nat -> output !! m = Some (sample m).

(** The bound each variable of the PINK loop stays under. *)
Definition pink_state_bounded (st : PinkState) : Prop :=
  (-48.7 <= b0 st <= 48.7) /\ (-11.24 <= b1 st <= 11.24)
  /\ (-4.97 <= b2 st <= 4.97) /\ (-2.33 <= b3 st <= 2.33)
  /\ (-1.19 <= b4 st <= 1.19) /\ (-0.071 <= b5 st <= 0.071)
  /\ (-0.115926 <= b6 st <= 0.115926).

(** The magnitude each branch keeps its samples under. *)
Definition amplitude (type : NoiseColor) : Q :=
  match type with
  | WHITE => 1
  | PINK => 7.61
  | BROWN => 3.5
  end.

(** The magnitude the first sample of a buffer stays under: the filters of
    PINK and BROWN start from zero. *)
Definition first_amplitude (type : NoiseColor) : Q :=
  match type with
  | WHITE => 1
  | PINK => 0.19
  | BROWN => 0.07
  end.

(** The largest jump from a last sample to a first one: 2 for WHITE, 7.8
    for PINK, 3.57 for BROWN. *)
Definition seam_bound (type : NoiseColor) : Q := amplitude type + first_amplitude type.

(** The jump a looping source makes when it wraps: last sample to first. *)
Definition seam_delta (buf : AudioBuffer) : Q :=
  Qabs (get (channelData buf) (N.to_nat (bufLength buf - 1)) - get (channelData buf) 0).

(** A leaky integrator driven by the white values:
    [x = a * x + white * c], from [0]. *)
Fixpoint pole (a c : Q) (g : Rng) (m : nat) : Q :=
  match m with
  | O => 0
  | S m' => a * pole a c g m' + white_at g m' * c
  end.

(** The six integrators of the PINK branch after [m] iterations. *)
Definition six_poles (g : Rng) (m : nat) : Q :=
  pole 0.99886 0.0555179 g m + pole 0.99332 0.0750759 g m
  + pole 0.96900 0.1538520 g m + pole 0.86650 0.3104856 g m
  + pole 0.55000 0.5329522 g m + pole (-0.7616) (-0.0168980) g m.

(** The white value of the iteration before [i], scaled: what [b6] holds
    when iteration [i] reads it. *)
Definition delayed_white (g : Rng) (i : nat) : Q :=
  match i with
  | O => 0
  | S j => white_at g j * 0.115926
  end.

(** PINK sample [i] from six poles and the direct white term only. *)
Definition pink_six_pole_sample (g : Rng) (i : nat) : Q :=
  0.11 * (six_poles g (S i) + white_at g i * 0.5362).

(** PINK sample [i] from six poles, the delayed white term and the direct
    white term. *)
Definition pink_seven_term_sample (g : Rng) (i : nat) : Q :=
  0.11 * (six_poles g (S i) + delayed_white g i + white_at g i * 0.5362).

(** Generators used as concrete inputs. *)
Definition rng_const (r : Q) : Rng := mkRng (fun _ => r) 0.

Definition rng_first (r0 r : Q) : Rng :=
  mkRng (fun n => match n with O => r0 | S _ => r end) 0.

(** ** Engines *)

(** The refs of a hook that found no [AudioContext] constructor. *)
Definition unsupported (r : Refs) : Prop :=
  audioCtxRef r = None /\ gainNodeRef r = None /\ filterNodeRef r = None
  /\ analyserNodeRef r = None /\ sourceNodeRef r = None.

(** The refs of a hook with audio, last rendered with [prev]: the graph and
    the three buffers exist, and a source is attached exactly while
    [prev.isPlaying]. *)
Definition supported (prev : AudioState) (r : Refs) : Prop :=
  is_Some (audioCtxRef r) /\ is_Some (gainNodeRef r) /\ is_Some (filterNodeRef r)
  /\ is_Some (analyserNodeRef r) /\ (forall c, is_Some (buffersRef r c))
  /\ (is_Some (sourceNodeRef r) <-> isPlaying prev = true).

(** [reachable prev r]: the refs are [r] after a mount and any number of
    renders, the last of them with state [prev]. *)
Inductive reachable : AudioState -> Refs -> Prop :=
| reachable_mount (w : Window) (g : Rng) (s : AudioState) (env : Env) :
    reachable s (fst (fst (mount w g s env)))
| reachable_update (prev s : AudioState) (env : Env) (r : Refs) :
    reachable prev r -> reachable s (fst (update prev s env r)).

(** ** Traces *)

Definition is_source_stop (c : Call) : bool :=
  match c with source_stop => true | _ => false end.

Definition is_source_disconnect (c : Call) : bool :=
  match c with source_disconnect => true | _ => false end.

Definition is_source_start (c : Call) : bool :=
  match c with source_start => true | _ => false end.

Definition is_createBufferSource (c : Call) : bool :=
  match c with createBufferSource => true | _ => false end.

Definition is_setTargetAtTime (c : Call) : bool :=
  match c with setTargetAtTime _ _ _ _ => true | _ => false end.

(** How many calls of a trace are of the given kind. *)
Definition count_calls (kind : Call -> bool) (tr : list Call) : nat :=
  length (List.filter kind tr).

(** The documented domain of each parameter. *)
Definition in_domain (p : AudioParam) (v : Q) : Prop :=
  match p with
  | gain_gain => 0 <= v <= 1
  | filter_frequency => 20 <= v <= 20000
  | filter_Q => 0 < v
  end.

(** The value a call gives a parameter, if it gives one, is in its domain. *)
Definition call_in_domain (c : Call) : Prop :=
  match c with
  | setValueAtTime p v _ | linearRampToValueAtTime p v _ | setTargetAtTime p v _ _ =>
      in_domain p v
  | _ => True
  end.

Definition state_in_domain (s : AudioState) : Prop :=
  in_domain gain_gain (volume s) /\ in_domain filter_frequency (filterFrequency s)
  /\ in_domain filter_Q (filterQ s).

(** The field of the state that feeds a parameter. *)
Definition state_value (s : AudioState) (p : AudioParam) : Q :=
  match p with
  | gain_gain => volume s
  | filter_frequency => filterFrequency s
  | filter_Q => filterQ s
  end.

(** The value a call gives a parameter is the state's own, or, on the gain,
    the 0 or the current gain a fade starts from or ends at. *)
Definition call_passes_state (s : AudioState) (env : Env) (c : Call) : Prop :=
  match c with
  | setValueAtTime p v _ => p = gain_gain /\ (v = 0 \/ v = gain_value env)
  | linearRampToValueAtTime p v _ => p = gain_gain /\ (v = 0 \/ v = volume s)
  | setTargetAtTime p v _ _ => v = state_value s p
  | _ => True
  end.

(** The spectrum frames a run of the visualizer reads. *)
Definition is_getByteFrequencyData (c : DrawCall) : bool :=
  match c with getByteFrequencyData => true | _ => false end.

Definition frames_read (calls : list DrawCall) : nat :=
  length (List.filter is_getByteFrequencyData calls).

(** ** Concrete inputs *)

Definition window_44100 : Window := mkWindow (Some (mkAudioContext 44100)) None.

Definition window_none : Window := mkWindow None None.

Definition pink_playing : AudioState := mkAudioState true 0.5 PINK 5000 1.

Definition brown_playing : AudioState := mkAudioState true 0.5 BROWN 5000 1.

Definition pink_stopped : AudioState := mkAudioState false 0.5 PINK 5000 1.

Definition pink_quieter : AudioState := mkAudioState true 0.25 PINK 5000 1.

Definition pink_out_of_range : AudioState := mkAudioState true 2 PINK 50000 (-1).

Definition pink_stopped_louder : AudioState := mkAudioState false 0.9 PINK 5000 1.

(** The refs after the hook was mounted with [pink_stopped] in a browser
    whose context runs at 44100 Hz. *)
Definition refs_pink_stopped : Refs :=
  fst (fst (mount window_44100 (rng_const 0.5) pink_stopped (mkEnv 0 true 0))).

(** The refs after the hook was mounted with [pink_playing] in a browser
    whose context runs at 44100 Hz. *)
Definition refs_pink_playing : Refs :=
  fst (fst (mount window_44100 (rng_const 0.5) pink_playing (mkEnv 0 true 0))).

(** ** More vocabulary: generator, runs, canvas *)

(** The generator whose every draw [r] is replaced by [1 - r], so that every
    white value changes sign. *)
Definition mirror (g : Rng) : Rng := mkRng (fun n => 1 - draws g n) (next g).

(** The place of a color in [Object.values(NoiseColor)]. *)
Definition color_index (c : NoiseColor) : nat :=
  match c with
  | WHITE => 0
  | PINK => 1
  | BROWN => 2
  end.

(** 1 when a source is attached, 0 when none is. *)
Definition attached (r : Refs) : nat :=
  match sourceNodeRef r with
  | Some _ => 1
  | None => 0
  end.

(** The mount followed by a sequence of renders: the last state, the refs
    and the whole trace. *)
Definition run (w : Window) (g : Rng) (s0 : AudioState) (env0 : Env)
  (inputs : list (AudioState * Env)) : AudioState * Refs * list Call :=
  let '(r0, t0, _) := mount w g s0 env0 in
  let '(last, r, t) := updates s0 r0 inputs in
  (last, r, t0 ++ t).

(** The calls that build the graph. *)
Definition is_graph_call (c : Call) : bool :=
  match c with
  | new_AudioContext | createGain | createBiquadFilter | createAnalyser
  | filter_connect_gain | gain_connect_analyser | analyser_connect_destination => true
  | _ => false
  end.

(** The calls on the gain parameter. *)
Definition is_gain_call (c : Call) : bool :=
  match c with
  | cancelScheduledValues gain_gain _ | setValueAtTime gain_gain _ _
  | linearRampToValueAtTime gain_gain _ _ | setTargetAtTime gain_gain _ _ _ => true
  | _ => false
  end.

(** The calls on a source node. *)
Definition is_source_call (c : Call) : bool :=
  match c with
  | source_stop | source_disconnect | createBufferSource | source_connect_filter
  | source_start => true
  | _ => false
  end.

(** [x] of the bar loop after [i] iterations. *)
Fixpoint bar_x (barWidth : Q) (i : nat) : Q :=
  match i with
  | O => 0
  | S j => bar_x barWidth j + (barWidth + 1)
  end.

(** The bar [draw] paints for bin [i]. *)
Definition bar_call (canvas_height barWidth : Q) (dataArray : list N) (primaryColor : string)
  (i : nat) : DrawCall :=
  fillRect (gradient_fill 0 (canvas_height - get_byte dataArray i / 1.5) 0 canvas_height
                          primaryColor)
           (bar_x barWidth i) (canvas_height / 2 - get_byte dataArray i / 1.5 / 2)
           barWidth (get_byte dataArray i / 1.5).

(** The buffer the init effect makes for a color: the colors are generated
    in the order of [NoiseColor_values], each with the draws the one before
    it left. *)
Definition buffer_of (ctx : AudioContext) (g : Rng) (c : NoiseColor) : AudioBuffer :=
  fst (createNoiseBuffer ctx c (advance g (color_index c * N.to_nat (sampleRate ctx * 5)))).

(** The refs of a hook mounted with the context [ctx] and the generator [g],
    last rendered with [last]. *)
Definition engine_of (ctx : AudioContext) (g : Rng) (last : AudioState) (r : Refs) : Prop :=
  audioCtxRef r = Some ctx
  /\ gainNodeRef r = Some mkGainNode
  /\ filterNodeRef r = Some (mkFilter lowpass)
  /\ analyserNodeRef r = Some (mkAnalyser 2048)
  /\ (forall c, buffersRef r c = Some (buffer_of ctx g c))
  /\ sourceNodeRef r
     = (if isPlaying last
        then Some (mkSource (buffer_of ctx g (noiseColor last)) true)
        else None).

(** * The generator *)

Section Loops.

Context {St : Type}.
Variable body : nat -> St -> St.

(** An invariant indexed by the loop counter holds when the loop ends. *)
Lemma for_loop_inv (P : nat -> St -> Prop) (n : nat) :
  forall i s,
    P i s ->
    (forall j t, (i <= j < i + n)%nat -> P j t -> P (S j) (body j t)) ->
    P (i + n)%nat (for_loop n i body s).
Proof.
  induction n as [|n IH]; intros i s Hs Hstep; cbn [for_loop].
  - by rewrite Nat.add_0_r.
  - replace (i + S n)%nat with (S i + n)%nat by lia.
    apply IH.
    + apply Hstep; [lia | done].
    + intros j t Hj. apply Hstep. lia.
Qed.

End Loops.

Lemma get_insert (output : list Q) (i : nat) (v : Q) :
  (i < length output)%nat -> get (<[i := v]> output) i = v.
Proof. intros Hi. unfold get. by rewrite list_lookup_insert_eq. Qed.

Lemma advance_S (g : Rng) (j : nat) :
  mkRng (draws g) (S (next g + j)) = advance g (S j).
Proof. unfold advance. f_equal. lia. Qed.

Lemma filled_start (sample : nat -> Q) (size : nat) : filled sample size 0 (replicate size 0).
Proof. split; [apply length_replicate | intros m Hm; lia]. Qed.

Lemma filled_step (sample : nat -> Q) (size j : nat) (output : list Q) :
  (j < size)%nat -> filled sample size j output ->
  filled sample size (S j) (<[j := sample j]> output).
Proof.
  intros Hj [Hlen Hpre]. split.
  - by rewrite length_insert.
  - intros m Hm. destruct (decide (m = j)) as [->|Hne].
    + apply list_lookup_insert_eq. lia.
    + rewrite list_lookup_insert_ne by done. apply Hpre. lia.
Qed.

Lemma white_loop_spec (g : Rng) (size n : nat) :
  (n <= size)%nat ->
  exists output,
    for_loop n 0 white_body (g, replicate size 0) = (advance g n, output)
    /\ filled (white_sample g) size n output.
Proof.
  intros Hn.
  apply (for_loop_inv white_body
           (fun j s => exists output, s = (advance g j, output)
                                      /\ filled (white_sample g) size j output) n 0).
  - exists (replicate size 0). split; [|apply filled_start].
    unfold advance. rewrite Nat.add_0_r. by destruct g.
  - intros j t Hj (output & -> & Hfill).
    eexists. split.
    + unfold white_body, Math_random. cbn [advance draws next].
      rewrite advance_S. reflexivity.
    + apply (filled_step (white_sample g)); [lia | done].
Qed.

Lemma brown_loop_spec (g : Rng) (size n : nat) :
  (n <= size)%nat ->
  exists output,
    for_loop n 0 brown_body (0, g, replicate size 0)
    = (brown_lastOut g n, advance g n, output)
    /\ filled (brown_sample g) size n output.
Proof.
  intros Hn.
  apply (for_loop_inv brown_body
           (fun j s => exists output, s = (brown_lastOut g j, advance g j, output)
                                      /\ filled (brown_sample g) size j output) n 0).
  - exists (replicate size 0). split; [|apply filled_start].
    unfold advance. rewrite Nat.add_0_r. by destruct g.
  - intros j t Hj (output & -> & Hfill).
    assert (Hlen : (j < length output)%nat) by (destruct Hfill as [-> _]; lia).
    eexists. split.
    + unfold brown_body, Math_random. cbn [advance draws next].
      rewrite advance_S, !get_insert by (by rewrite ?length_insert).
      reflexivity.
    + rewrite list_insert_insert_eq.
      apply (filled_step (brown_sample g)); [lia | done].
Qed.

Lemma pink_loop_spec (g : Rng) (size n : nat) :
  (n <= size)%nat ->
  exists output,
    for_loop n 0 pink_body (pink_init, g, replicate size 0)
    = (pink_state g n, advance g n, output)
    /\ filled (pink_sample g) size n output.
Proof.
  intros Hn.
  apply (for_loop_inv pink_body
           (fun j s => exists output, s = (pink_state g j, advance g j, output)
                                      /\ filled (pink_sample g) size j output) n 0).
  - exists (replicate size 0). split; [|apply filled_start].
    unfold advance. rewrite Nat.add_0_r. by destruct g.
  - intros j t Hj (output & -> & Hfill).
    assert (Hlen : (j < length output)%nat) by (destruct Hfill as [-> _]; lia).
    eexists. split.
    + unfold pink_body, Math_random. cbn [advance draws next].
      rewrite advance_S, !get_insert by (by rewrite ?length_insert).
      reflexivity.
    + rewrite list_insert_insert_eq.
      apply (filled_step (pink_sample g)); [lia | done].
Qed.

(** The buffer [createNoiseBuffer] returns: its length, its samples, and the
    number of draws it used. *)
Lemma createNoiseBuffer_spec (ctx : AudioContext) (type : NoiseColor) (g : Rng) :
  let len := N.to_nat (sampleRate ctx * 5) in
  let buf := fst (createNoiseBuffer ctx type g) in
  snd (createNoiseBuffer ctx type g) = advance g len
  /\ bufLength buf = (sampleRate ctx * 5)%N
  /\ filled (sample_of type g) len len (channelData buf).
Proof.
  intros len buf. subst buf. unfold createNoiseBuffer.
  cbn [channelData createBuffer numberOfChannels bufLength bufSampleRate].
  fold len.
  destruct type.
  - destruct (white_loop_spec g len len (le_n len)) as (output & -> & Hfill). by cbn.
  - destruct (pink_loop_spec g len len (le_n len)) as (output & -> & Hfill). by cbn.
  - destruct (brown_loop_spec g len len (le_n len)) as (output & -> & Hfill). by cbn.
Qed.

(** ** Bounds on the samples *)

Lemma white_at_range (g : Rng) (m : nat) :
  draws_in_range g -> -1 <= white_at g m <= 1.
Proof. intros Hg. unfold white_at. specialize (Hg (next g + m)%nat). lra. Qed.

Lemma div_1_02_range (y : Q) : -1.02 <= y <= 1.02 -> -1 <= y / 1.02 <= 1.
Proof.
  intros Hy.
  assert (E : y == (y / 1.02) * 1.02) by field.
  lra.
Qed.

Lemma brown_lastOut_range (g : Rng) (m : nat) :
  draws_in_range g -> -1 <= brown_lastOut g m <= 1.
Proof.
  intros Hg. induction m as [|m IH]; cbn [brown_lastOut].
  - lra.
  - apply div_1_02_range. pose proof (white_at_range g m Hg). lra.
Qed.

Lemma pink_state_range (g : Rng) (m : nat) :
  draws_in_range g -> pink_state_bounded (pink_state g m).
Proof.
  intros Hg. induction m as [|m IH].
  - unfold pink_state_bounded. cbn [pink_state pink_init b0 b1 b2 b3 b4 b5 b6].
    repeat split; lra.
  - pose proof (white_at_range g m Hg) as Hw.
    unfold pink_state_bounded in *.
    cbn [pink_state b0 b1 b2 b3 b4 b5 b6].
    destruct IH as (H0 & H1 & H2 & H3 & H4 & H5 & H6).
    repeat split; lra.
Qed.

Lemma sample_range (type : NoiseColor) (g : Rng) (m : nat) :
  draws_in_range g -> - amplitude type <= sample_of type g m <= amplitude type.
Proof.
  intros Hg. pose proof (white_at_range g m Hg) as Hw.
  destruct type; cbn [sample_of amplitude].
  - unfold white_sample. lra.
  - unfold pink_sample.
    pose proof (pink_state_range g m Hg) as (_ & _ & _ & _ & _ & _ & H6).
    pose proof (pink_state_range g (S m) Hg) as (H0 & H1 & H2 & H3 & H4 & H5 & _).
    lra.
  - unfold brown_sample. pose proof (brown_lastOut_range g (S m) Hg). lra.
Qed.

Lemma filled_Forall (sample : nat -> Q) (N : nat) (output : list Q) (P : Q -> Prop) :
  filled sample N N output -> (forall m, P (sample m)) -> Forall P output.
Proof.
  intros [Hlen Hpre] HP. apply Forall_lookup. intros i x Hix.
  assert (Hi : (i < N)%nat) by (rewrite <- Hlen; by eapply lookup_lt_Some).
  rewrite (Hpre i Hi) in Hix. injection Hix as <-. apply HP.
Qed.

Lemma filled_get (sample : nat -> Q) (N j m : nat) (output : list Q) :
  filled sample N j output -> (m < j)%nat -> get output m = sample m.
Proof. intros [_ Hpre] Hm. unfold get. by rewrite (Hpre m Hm). Qed.

(** ** The BROWN integrator *)

(** C9.  In the BROWN branch [lastOut] starts at 0 and, for draws in range,
    has magnitude at most 1 after every iteration of the loop; every sample
    of the BROWN buffer has magnitude at most 3.5. *)
Theorem C9_brown_lastOut_bounded (ctx : AudioContext) (g : Rng) :
  draws_in_range g ->
  let len := N.to_nat (sampleRate ctx * 5) in
  fst (fst (for_loop 0 0 brown_body (0, g, replicate len 0))) = 0
  /\ (forall n, (n <= len)%nat ->
        Qabs (fst (fst (for_loop n 0 brown_body (0, g, replicate len 0)))) <= 1)
  /\ Forall (fun v => Qabs v <= 3.5) (channelData (fst (createNoiseBuffer ctx BROWN g))).
Proof.
  intros Hg len. split; [reflexivity | split].
  - intros n Hn.
    destruct (brown_loop_spec g len n Hn) as (output & -> & _). cbn [fst].
    apply Qabs_Qle_condition. pose proof (brown_lastOut_range g n Hg). lra.
  - destruct (createNoiseBuffer_spec ctx BROWN g) as (_ & _ & Hfill).
    apply (filled_Forall _ _ _ _ Hfill). intros m.
    apply Qabs_Qle_condition.
    pose proof (sample_range BROWN g m Hg) as H. cbn [amplitude] in H. lra.
Qed.

Lemma rng_const_in_range (r : Q) : 0 <= r <= 1 -> draws_in_range (rng_const r).
Proof. intros Hr n. exact Hr. Qed.

Lemma C9_brown_lastOut_bounded_witness :
  draws_in_range (rng_const 0)
  /\ Forall (fun v => Qabs v <= 3.5)
       (channelData (fst (createNoiseBuffer (mkAudioContext 1) BROWN (rng_const 0)))).
Proof.
  assert (H : draws_in_range (rng_const 0)).
  { intros n. vm_compute. split; discriminate. }
  split; [exact H |].
  apply (C9_brown_lastOut_bounded (mkAudioContext 1) (rng_const 0) H).
Defined.

(** ** Length and range of a buffer *)

(** C4, as stated, fails: at 44100 Hz, when every draw is 0 (every white
    value -1), sample 100 of the BROWN buffer and sample 40 of the PINK
    buffer are below -1. *)
Lemma C4_samples_leave_unit_range :
  draws_in_range (rng_const 0)
  /\ ~ Forall (fun v => -1 <= v <= 1)
         (channelData (fst (createNoiseBuffer (mkAudioContext 44100) BROWN (rng_const 0))))
  /\ ~ Forall (fun v => -1 <= v <= 1)
         (channelData (fst (createNoiseBuffer (mkAudioContext 44100) PINK (rng_const 0)))).
Proof.
  split; [intros n; vm_compute; split; discriminate |].
  split; intros HF.
  - destruct (createNoiseBuffer_spec (mkAudioContext 44100) BROWN (rng_const 0))
      as (_ & _ & _ & Hpre).
    rewrite Forall_lookup in HF.
    specialize (HF 100%nat _ (Hpre 100%nat ltac:(cbn [sampleRate]; lia))).
    destruct HF as [HF _]. revert HF. cbn [sample_of]. vm_compute.
    intros HF. by apply HF.
  - destruct (createNoiseBuffer_spec (mkAudioContext 44100) PINK (rng_const 0))
      as (_ & _ & _ & Hpre).
    rewrite Forall_lookup in HF.
    specialize (HF 40%nat _ (Hpre 40%nat ltac:(cbn [sampleRate]; lia))).
    destruct HF as [HF _]. revert HF. cbn [sample_of]. vm_compute.
    intros HF. by apply HF.
Qed.

Lemma buffer_within_amplitude (ctx : AudioContext) (type : NoiseColor) (g : Rng) :
  draws_in_range g ->
  Forall (fun v => - amplitude type <= v <= amplitude type)
         (channelData (fst (createNoiseBuffer ctx type g))).
Proof.
  intros Hg. destruct (createNoiseBuffer_spec ctx type g) as (_ & _ & Hfill).
  apply (filled_Forall _ _ _ _ Hfill). intros m. by apply sample_range.
Qed.

(** C4, amended.  For every color, sample rate and sequence of draws in
    range, the buffer has [5 * sampleRate] samples, and every sample lies
    within the amplitude of its color: 1 for WHITE, 7.61 for PINK, 3.5 for
    BROWN. *)
Theorem C4_buffer_length_and_amplitude (ctx : AudioContext) (type : NoiseColor) (g : Rng) :
  draws_in_range g ->
  let buf := fst (createNoiseBuffer ctx type g) in
  bufLength buf = (5 * sampleRate ctx)%N
  /\ length (channelData buf) = N.to_nat (5 * sampleRate ctx)
  /\ Forall (fun v => - amplitude type <= v <= amplitude type) (channelData buf).
Proof.
  intros Hg buf. subst buf.
  destruct (createNoiseBuffer_spec ctx type g) as (_ & Hlen & Hfill).
  rewrite (N.mul_comm 5). split; [exact Hlen | split].
  - apply Hfill.
  - by apply buffer_within_amplitude.
Qed.

Lemma C4_buffer_length_and_amplitude_witness :
  draws_in_range (rng_const 0.75)
  /\ length (channelData (fst (createNoiseBuffer (mkAudioContext 2) PINK (rng_const 0.75))))
     = 10%nat.
Proof.
  assert (H : draws_in_range (rng_const 0.75)).
  { intros n. vm_compute. split; discriminate. }
  split; [exact H |].
  apply (C4_buffer_length_and_amplitude (mkAudioContext 2) PINK (rng_const 0.75) H).
Defined.

(** ** The loop seam *)

Lemma get_Forall (P : Q -> Prop) (output : list Q) (i : nat) :
  Forall P output -> P 0 -> P (get output i).
Proof.
  intros HF H0. unfold get. destruct (output !! i) as [x|] eqn:E; cbn [default].
  - rewrite Forall_lookup in HF. by eapply HF.
  - exact H0.
Qed.

(** With every draw 0 the BROWN integrator only goes down. *)
Lemma brown_zero_draws_decreasing (m : nat) :
  brown_lastOut (rng_const 0) (S m) <= brown_lastOut (rng_const 0) m.
Proof.
  assert (Hg : draws_in_range (rng_const 0)) by (apply rng_const_in_range; lra).
  pose proof (brown_lastOut_range _ m Hg) as Hm.
  cbn [brown_lastOut].
  change (white_at (rng_const 0) m) with (0 * 2 - 1).
  set (y := brown_lastOut _ m + 0.02 * (0 * 2 - 1)).
  assert (E : y == (y / 1.02) * 1.02) by field.
  subst y. lra.
Qed.

Lemma brown_zero_draws_low (m : nat) :
  (200 <= m)%nat -> brown_lastOut (rng_const 0) m <= -0.98.
Proof.
  induction 1 as [|m Hm IH].
  - apply Qle_bool_iff. by vm_compute.
  - pose proof (brown_zero_draws_decreasing m). lra.
Qed.

(** Where the buffer wraps: the last and the first sample stored. *)
Lemma seam_delta_samples (ctx : AudioContext) (type : NoiseColor) (g : Rng) :
  (0 < sampleRate ctx)%N ->
  seam_delta (fst (createNoiseBuffer ctx type g))
  = Qabs (sample_of type g (N.to_nat (sampleRate ctx * 5 - 1)) - sample_of type g 0).
Proof.
  intros Hpos.
  destruct (createNoiseBuffer_spec ctx type g) as (_ & Hlen & Hfill).
  unfold seam_delta. rewrite Hlen.
  rewrite (filled_get _ _ _ (N.to_nat (sampleRate ctx * 5 - 1)) _ Hfill) by lia.
  rewrite (filled_get _ _ _ 0%nat _ Hfill) by lia.
  reflexivity.
Qed.

Lemma brown_zero_draws_jump (m : nat) :
  (199 <= m)%nat ->
  3 <= Qabs (brown_sample (rng_const 0) m - brown_sample (rng_const 0) 0).
Proof.
  intros Hm. unfold brown_sample.
  pose proof (brown_zero_draws_low (S m) ltac:(lia)) as Hlast.
  assert (Hfirst : brown_lastOut (rng_const 0) 1 == -(1 # 51)) by (by vm_compute).
  rewrite Qabs_Qminus.
  eapply Qle_trans; [| apply Qle_Qabs]. lra.
Qed.

(** C5, as stated, fails for any threshold up to 3: at 44100 Hz, when every
    draw is 0, the last sample of the BROWN buffer is below -3.4 and the
    first is -7/102, so the buffer jumps by more than 3 where it wraps (a
    step inside the buffer is at most 0.14). *)
Lemma C5_brown_seam_jump :
  draws_in_range (rng_const 0)
  /\ 3 <= seam_delta (fst (createNoiseBuffer (mkAudioContext 44100) BROWN (rng_const 0))).
Proof.
  split; [apply rng_const_in_range; lra |].
  pose proof (seam_delta_samples (mkAudioContext 44100) BROWN (rng_const 0) eq_refl) as E.
  rewrite E. cbn [sample_of].
  apply brown_zero_draws_jump. cbn [sampleRate]. lia.
Qed.

Lemma first_sample_range (type : NoiseColor) (g : Rng) :
  draws_in_range g ->
  - first_amplitude type <= sample_of type g 0 <= first_amplitude type.
Proof.
  intros Hg. pose proof (white_at_range g 0 Hg) as Hw.
  destruct type; cbn [sample_of first_amplitude].
  - unfold white_sample. lra.
  - unfold pink_sample. cbn [pink_state pink_init b0 b1 b2 b3 b4 b5 b6]. lra.
  - unfold brown_sample. cbn [brown_lastOut].
    set (y := 0 + 0.02 * white_at g 0).
    assert (E : y == (y / 1.02) * 1.02) by field.
    subst y. lra.
Qed.

Lemma brown_zero_draws_lower (m : nat) :
  (250 <= m)%nat -> brown_lastOut (rng_const 0) m <= -0.9911.
Proof.
  induction 1 as [|m Hm IH].
  - apply Qle_bool_iff. by vm_compute.
  - pose proof (brown_zero_draws_decreasing m). lra.
Qed.

(** C5, amended.  For draws in range the last and the first sample of the
    buffer differ by at most 2 for WHITE, 7.8 for PINK and 3.57 for BROWN:
    the last sample can be anywhere within the amplitude of the color, the
    first is within 1, 0.19 and 0.07 of zero.  Nothing brings the jump under
    a click threshold: with every draw 0 the BROWN buffer jumps by more
    than 3.4 where it wraps, at every sample rate from 50 Hz up. *)
Theorem C5_seam_bound (ctx : AudioContext) (type : NoiseColor) (g : Rng) :
  draws_in_range g ->
  seam_delta (fst (createNoiseBuffer ctx type g)) <= seam_bound type
  /\ ((50 <= sampleRate ctx)%N ->
      3.4 <= seam_delta (fst (createNoiseBuffer ctx BROWN (rng_const 0)))).
Proof.
  intros Hg. split.
  - destruct (N.eq_dec (sampleRate ctx) 0%N) as [Hz | Hnz].
    + destruct (createNoiseBuffer_spec ctx type g) as (_ & _ & Hlen & _).
      rewrite Hz in Hlen. apply nil_length_inv in Hlen.
      unfold seam_delta. rewrite Hlen. unfold get. cbn [lookup list_lookup default].
      rewrite !lookup_nil. cbn [default].
      destruct type; by vm_compute.
    + rewrite seam_delta_samples by lia.
      pose proof (sample_range type g (N.to_nat (sampleRate ctx * 5 - 1)) Hg) as Hlast.
      pose proof (first_sample_range type g Hg) as Hfirst.
      unfold seam_bound. apply Qabs_Qle_condition. lra.
  - intros Hsr. rewrite seam_delta_samples by lia. cbn [sample_of]. unfold brown_sample.
    pose proof (brown_zero_draws_lower (S (N.to_nat (sampleRate ctx * 5 - 1))) ltac:(lia))
      as Hlast.
    assert (Hfirst : brown_lastOut (rng_const 0) 1 == -(1 # 51)) by (by vm_compute).
    rewrite Qabs_Qminus.
    eapply Qle_trans; [| apply Qle_Qabs]. lra.
Qed.

Lemma C5_seam_bound_witness :
  draws_in_range (rng_const 0.75)
  /\ seam_delta (fst (createNoiseBuffer (mkAudioContext 2) BROWN (rng_const 0.75)))
     <= seam_bound BROWN.
Proof.
  assert (H : draws_in_range (rng_const 0.75)).
  { intros n. vm_compute. split; discriminate. }
  split; [exact H |].
  exact (proj1 (C5_seam_bound (mkAudioContext 2) BROWN (rng_const 0.75) H)).
Defined.

(** ** The PINK sample *)

Lemma pink_state_poles (g : Rng) (m : nat) :
  b0 (pink_state g m) + b1 (pink_state g m) + b2 (pink_state g m)
  + b3 (pink_state g m) + b4 (pink_state g m) + b5 (pink_state g m)
  == six_poles g m
  /\ b6 (pink_state g m) == delayed_white g m.
Proof.
  assert (H : b0 (pink_state g m) == pole 0.99886 0.0555179 g m
              /\ b1 (pink_state g m) == pole 0.99332 0.0750759 g m
              /\ b2 (pink_state g m) == pole 0.96900 0.1538520 g m
              /\ b3 (pink_state g m) == pole 0.86650 0.3104856 g m
              /\ b4 (pink_state g m) == pole 0.55000 0.5329522 g m
              /\ b5 (pink_state g m) == pole (-0.7616) (-0.0168980) g m).
  { induction m as [|m (H0 & H1 & H2 & H3 & H4 & H5)];
      cbn [pink_state pink_init pole b0 b1 b2 b3 b4 b5].
    - repeat split; reflexivity.
    - repeat split; lra. }
  destruct H as (H0 & H1 & H2 & H3 & H4 & H5). split.
  - unfold six_poles. lra.
  - destruct m; cbn [pink_state pink_init delayed_white b6]; reflexivity.
Qed.

(** C6, as stated, fails: with draws 0.75 then 0.5 (white values 0.5 then
    0), sample 1 of the PINK buffer is not 0.11 times the six poles plus the
    direct white term; the difference is 0.11 * 0.115926 * 0.5, the share of
    [b6]. *)
Lemma C6_six_poles_do_not_give_sample :
  exists v,
    channelData (fst (createNoiseBuffer (mkAudioContext 44100) PINK (rng_first 0.75 0.5)))
      !! 1%nat = Some v
    /\ ~ v == pink_six_pole_sample (rng_first 0.75 0.5) 1
    /\ v - pink_six_pole_sample (rng_first 0.75 0.5) 1 == 0.11 * (0.115926 * 0.5).
Proof.
  destruct (createNoiseBuffer_spec (mkAudioContext 44100) PINK (rng_first 0.75 0.5))
    as (_ & _ & _ & Hpre).
  eexists. split; [apply Hpre; cbn [sampleRate]; lia |].
  cbn [sample_of]. split.
  - intros H. apply Qeq_bool_iff in H. vm_compute in H. discriminate H.
  - apply Qeq_bool_iff. by vm_compute.
Qed.

(** C6, amended.  Every sample of the PINK buffer is 0.11 times the sum of
    the six leaky integrators [b0..b5], of a seventh term [b6] (0.115926
    times the white value of the iteration before, 0 in the first), and of
    the direct white term (0.5362 times the white value). *)
Theorem C6_pink_sample_seven_terms (ctx : AudioContext) (g : Rng) (i : nat) :
  (i < N.to_nat (sampleRate ctx * 5))%nat ->
  exists v,
    channelData (fst (createNoiseBuffer ctx PINK g)) !! i = Some v
    /\ v == pink_seven_term_sample g i.
Proof.
  intros Hi.
  destruct (createNoiseBuffer_spec ctx PINK g) as (_ & _ & _ & Hpre).
  eexists. split; [by apply Hpre |].
  cbn [sample_of]. unfold pink_sample, pink_seven_term_sample.
  destruct (pink_state_poles g (S i)) as [Hsum _].
  destruct (pink_state_poles g i) as [_ Hb6].
  cbv zeta. lra.
Qed.

Lemma C6_pink_sample_seven_terms_witness :
  (3 < N.to_nat (sampleRate (mkAudioContext 2) * 5))%nat
  /\ exists v,
       channelData (fst (createNoiseBuffer (mkAudioContext 2) PINK (rng_const 0.75)))
         !! 3%nat = Some v
       /\ v == pink_seven_term_sample (rng_const 0.75) 3.
Proof.
  assert (H : (3 < N.to_nat (sampleRate (mkAudioContext 2) * 5))%nat) by (vm_compute; lia).
  split; [exact H |].
  apply (C6_pink_sample_seven_terms (mkAudioContext 2) (rng_const 0.75) 3 H).
Defined.

(** * The hook *)

(** ** Reachable engines *)

Lemma init_effect_supported (w : Window) (g : Rng) (ctx : AudioContext) :
  AudioContextClass w = Some ctx ->
  let r := fst (fst (init_effect w g refs_initial)) in
  audioCtxRef r = Some ctx /\ gainNodeRef r = Some mkGainNode
  /\ filterNodeRef r = Some (mkFilter lowpass) /\ analyserNodeRef r = Some (mkAnalyser 2048)
  /\ sourceNodeRef r = None /\ forall c, is_Some (buffersRef r c).
Proof.
  intros Hw. unfold init_effect. rewrite Hw.
  cbn [fold_left NoiseColor_values refs_initial buffersRef fst snd].
  destruct (createNoiseBuffer ctx WHITE g) as [bw g1]. cbn [fst snd].
  destruct (createNoiseBuffer ctx PINK g1) as [bp g2]. cbn [fst snd].
  destruct (createNoiseBuffer ctx BROWN g2) as [bb g3].
  cbn [fst snd audioCtxRef gainNodeRef filterNodeRef analyserNodeRef sourceNodeRef buffersRef].
  repeat split. intros c. unfold set_buffer. destruct c; cbn; eauto.
Qed.

Lemma init_effect_unsupported (w : Window) (g : Rng) :
  AudioContextClass w = None -> init_effect w g refs_initial = (refs_initial, [], g).
Proof. intros Hw. unfold init_effect. by rewrite Hw. Qed.

Lemma source_effect_unsupported (s : AudioState) (env : Env) (r : Refs) :
  unsupported r -> source_effect s env r = (r, []).
Proof. intros (H & _). unfold source_effect. by rewrite H. Qed.

Lemma params_effect_unsupported (s : AudioState) (env : Env) (r : Refs) :
  unsupported r -> params_effect s env r = [].
Proof. intros (H & _). unfold params_effect. by rewrite H. Qed.

(** The source effect on an engine with audio support. *)
Lemma source_effect_supported (prev s : AudioState) (env : Env) (r : Refs) :
  supported prev r ->
  exists buf,
    buffersRef r (noiseColor s) = Some buf
    /\ source_effect s env r
       = (set_sourceNodeRef r (if isPlaying s then Some (mkSource buf true) else None),
          (if isPlaying prev then [source_stop; source_disconnect] else [])
          ++ (if isPlaying s
              then (if ctx_suspended env then [ctx_resume] else [])
                   ++ [createBufferSource; source_connect_filter; source_start;
                       cancelScheduledValues gain_gain (currentTime env);
                       setValueAtTime gain_gain 0 (currentTime env);
                       linearRampToValueAtTime gain_gain (volume s) (currentTime env + 0.1)]
              else [cancelScheduledValues gain_gain (currentTime env);
                    setValueAtTime gain_gain (gain_value env) (currentTime env);
                    linearRampToValueAtTime gain_gain 0 (currentTime env + 0.1)])).
Proof.
  intros ([ctx Hc] & [gn Hg] & [f Hf] & _ & Hb & Hsrc).
  destruct (Hb (noiseColor s)) as [buf Hbuf]. exists buf. split; [done |].
  unfold source_effect. rewrite Hc, Hg, Hf.
  destruct r as [c src gn' f' a bufs]. cbn in Hbuf, Hsrc |- *.
  destruct src as [src|], (isPlaying prev) eqn:Hp.
  - destruct (isPlaying s); cbn; rewrite ?Hbuf; cbn; by rewrite <- ?app_assoc.
  - destruct Hsrc as [Hsrc _]. by specialize (Hsrc ltac:(eauto)).
  - destruct Hsrc as [_ Hsrc]. by destruct (Hsrc eq_refl).
  - destruct (isPlaying s); cbn; rewrite ?Hbuf; cbn; done.
Qed.

Lemma params_effect_supported (prev s : AudioState) (env : Env) (r : Refs) :
  supported prev r ->
  params_effect s env r
  = (if isPlaying s then [setTargetAtTime gain_gain (volume s) (currentTime env) 0.1] else [])
    ++ [setTargetAtTime filter_frequency (filterFrequency s) (currentTime env) 0.1;
        setTargetAtTime filter_Q (filterQ s) (currentTime env) 0.1].
Proof.
  intros ([ctx Hc] & [gn Hg] & [f Hf] & _).
  unfold params_effect. by rewrite Hc, Hg, Hf.
Qed.

Lemma source_effect_keeps_support (prev s : AudioState) (env : Env) (r : Refs) :
  supported prev r -> supported s (fst (source_effect s env r)).
Proof.
  intros Hsup. destruct (source_effect_supported prev s env r Hsup) as (buf & _ & ->).
  destruct Hsup as (Hc & Hg & Hf & Ha & Hb & _).
  cbn [fst]. unfold supported, set_sourceNodeRef. cbn.
  repeat split; try done.
  - intros H. destruct (isPlaying s); [done | by destruct H].
  - intros ->. eauto.
Qed.

Lemma source_effect_keeps_unsupported (s : AudioState) (env : Env) (r : Refs) :
  unsupported r -> unsupported (fst (source_effect s env r)).
Proof. intros H. by rewrite source_effect_unsupported. Qed.

Lemma source_deps_unchanged (prev s : AudioState) :
  source_deps_changed prev s = false ->
  isPlaying prev = isPlaying s /\ noiseColor prev = noiseColor s.
Proof.
  unfold source_deps_changed.
  destruct (isPlaying prev), (isPlaying s), (noiseColor prev), (noiseColor s); cbn; done.
Qed.

(** Every reachable engine either has no audio at all or has the whole graph
    and the three buffers, with a source attached exactly while playing. *)
Lemma reachable_invariant (prev : AudioState) (r : Refs) :
  reachable prev r -> unsupported r \/ supported prev r.
Proof.
  induction 1 as [w g s env | prev s env r Hr IH].
  - unfold mount. destruct (AudioContextClass w) as [ctx|] eqn:Hw.
    + right. pose proof (init_effect_supported w g ctx Hw) as Hinit.
      destruct (init_effect w g refs_initial) as [[r0 t0] g0]. cbn [fst] in Hinit.
      assert (Hsup : supported (mkAudioState false 0 WHITE 0 0) r0).
      { destruct Hinit as (Hc & Hg & Hf & Ha & Hs & Hb).
        unfold supported. rewrite Hc, Hg, Hf, Ha, Hs. cbn.
        repeat split; eauto; intros H; [by destruct H | done]. }
      pose proof (source_effect_keeps_support _ s env r0 Hsup) as Hsup'.
      destruct (source_effect s env r0) as [r1 t1]. exact Hsup'.
    + left. rewrite (init_effect_unsupported w g Hw).
      rewrite source_effect_unsupported by done. done.
  - unfold update. destruct (source_deps_changed prev s) eqn:Hd.
    + destruct IH as [Hun | Hsup].
      * left. pose proof (source_effect_keeps_unsupported s env r Hun).
        by destruct (source_effect s env r).
      * right. pose proof (source_effect_keeps_support prev s env r Hsup).
        by destruct (source_effect s env r).
    + cbn [fst]. destruct IH as [Hun | Hsup]; [by left | right].
      destruct (source_deps_unchanged prev s Hd) as [Hp _].
      unfold supported in *. by rewrite <- Hp.
Qed.

Lemma reachable_supported (prev : AudioState) (r : Refs) :
  reachable prev r -> is_Some (audioCtxRef r) -> supported prev r.
Proof.
  intros Hr [ctx Hc]. destruct (reachable_invariant prev r Hr) as [(Hn & _) | H]; [|done].
  congruence.
Qed.

(** ** One render *)

Lemma source_effect_frame (s : AudioState) (env : Env) (r : Refs) :
  exists src, fst (source_effect s env r) = set_sourceNodeRef r src.
Proof.
  unfold source_effect. destruct r as [[c|] src [gn|] [f|] a bufs]; cbn;
    try (by exists src).
  destruct src as [src|], (isPlaying s); cbn; try destruct (bufs (noiseColor s)); cbn;
    by eexists.
Qed.

Lemma params_effect_frame (s : AudioState) (env : Env) (r : Refs)
  (src : option AudioBufferSourceNode) :
  params_effect s env (set_sourceNodeRef r src) = params_effect s env r.
Proof. by destruct r. Qed.

(** A render runs the effects whose dependencies changed, the second on the
    refs the first left; the second does not read the source. *)
Lemma update_unfold (prev s : AudioState) (env : Env) (r : Refs) :
  update prev s env r
  = (if source_deps_changed prev s then fst (source_effect s env r) else r,
     (if source_deps_changed prev s then snd (source_effect s env r) else [])
     ++ (if params_deps_changed prev s then params_effect s env r else [])).
Proof.
  unfold update. destruct (source_deps_changed prev s).
  - destruct (source_effect_frame s env r) as [src Hsrc].
    destruct (source_effect s env r) as [r1 t1]. cbn [fst snd] in *. subst r1.
    by rewrite params_effect_frame.
  - done.
Qed.

(** The hook at a render is the mount or the update, and what it returns is
    the analyser the refs held before the effects ran. *)
Lemma useNoiseAudio_render (w : Window) (prev : option AudioState) (s : AudioState)
  (env : Env) (g : Rng) (r : Refs) :
  fst (useNoiseAudio w prev s env g r) = analyserNodeRef r
  /\ fst (fst (snd (useNoiseAudio w prev s env g r)))
     = match prev with
       | None => fst (fst (mount w g s env))
       | Some p => fst (update p s env r)
       end
  /\ snd (fst (snd (useNoiseAudio w prev s env g r)))
     = match prev with
       | None => snd (fst (mount w g s env))
       | Some p => snd (update p s env r)
       end.
Proof.
  unfold useNoiseAudio. cbn [fst snd]. destruct prev as [p|]; [| done].
  by destruct (update p s env r).
Qed.

Lemma params_render (prev s : AudioState) (env : Env) (r : Refs) :
  supported prev r ->
  source_deps_changed prev s = false ->
  params_deps_changed prev s = true ->
  update prev s env r
  = (r,
     (if isPlaying s then [setTargetAtTime gain_gain (volume s) (currentTime env) 0.1] else [])
     ++ [setTargetAtTime filter_frequency (filterFrequency s) (currentTime env) 0.1;
         setTargetAtTime filter_Q (filterQ s) (currentTime env) 0.1]).
Proof.
  intros Hsup Hd1 Hd2. rewrite update_unfold, Hd1, Hd2.
  by rewrite (params_effect_supported prev s env r Hsup).
Qed.

Lemma mount_supported (w : Window) (g : Rng) (s : AudioState) (env : Env)
  (ctx : AudioContext) :
  AudioContextClass w = Some ctx -> supported s (fst (fst (mount w g s env))).
Proof.
  intros Hw. apply reachable_supported; [apply reachable_mount |].
  unfold mount.
  pose proof (init_effect_supported w g ctx Hw) as (Hc & _).
  destruct (init_effect w g refs_initial) as [[r0 t0] g0]. cbn [fst] in Hc.
  destruct (source_effect_frame s env r0) as [src Hsrc].
  destruct (source_effect s env r0) as [r1 t1].
  cbn [fst] in *. subst r1. destruct r0. cbn in *. rewrite Hc. eauto.
Qed.

Lemma refs_pink_playing_supported : supported pink_playing refs_pink_playing.
Proof.
  apply reachable_supported; [apply reachable_mount |].
  unfold refs_pink_playing, mount.
  pose proof (init_effect_supported window_44100 (rng_const 0.5) _ eq_refl) as (Hc & _).
  destruct (init_effect window_44100 (rng_const 0.5) refs_initial) as [[r0 t0] g0].
  cbn [fst] in Hc.
  destruct (source_effect_frame pink_playing (mkEnv 0 true 0) r0) as [src Hsrc].
  destruct (source_effect pink_playing (mkEnv 0 true 0) r0) as [r1 t1].
  cbn [fst] in *. subst r1. destruct r0. cbn in *. rewrite Hc. eauto.
Qed.

Lemma color_change_deps (prev s : AudioState) :
  noiseColor s <> noiseColor prev -> source_deps_changed prev s = true.
Proof.
  intros Hne. unfold source_deps_changed.
  destruct (noiseColor prev), (noiseColor s); cbn; try done; by rewrite orb_true_r.
Qed.

Lemma play_change_deps (prev s : AudioState) :
  isPlaying prev <> isPlaying s ->
  source_deps_changed prev s = true /\ params_deps_changed prev s = true.
Proof.
  intros Hne. unfold source_deps_changed, params_deps_changed.
  destruct (isPlaying prev), (isPlaying s); try done; cbn; by rewrite ?orb_true_r.
Qed.

Lemma same_state_deps (s : AudioState) :
  source_deps_changed s s = false /\ params_deps_changed s s = false.
Proof.
  unfold source_deps_changed, params_deps_changed.
  rewrite !(proj2 (Qeq_bool_iff _ _) (Qeq_refl _)).
  destruct (isPlaying s), (noiseColor s); done.
Qed.

(** ** Re-sending a state *)

(** C7.  A render with the state of the render before it is a no-op: no
    call is made (no detach, no attach, no ramp) and the refs stay as they
    are; so sending a state twice leaves the refs and the trace of sending
    it once. *)
Theorem C7_same_state_is_noop (prev s : AudioState) (env env' : Env) (r : Refs) :
  update s s env r = (r, [])
  /\ updates prev r [(s, env); (s, env')] = updates prev r [(s, env)].
Proof.
  assert (Hnoop : forall e x, update s s e x = (x, [])).
  { intros e x. rewrite update_unfold.
    destruct (same_state_deps s) as [-> ->]. done. }
  split; [apply Hnoop |].
  cbn [updates]. destruct (update prev s env r) as [r1 t1].
  by rewrite Hnoop.
Qed.

(** ** Parameter changes *)

Lemma params_changed (prev s : AudioState) :
  ~ (volume prev == volume s /\ filterFrequency prev == filterFrequency s
     /\ filterQ prev == filterQ s) ->
  params_deps_changed prev s = true.
Proof.
  intros Hne. unfold params_deps_changed.
  destruct (Qeq_bool (volume prev) (volume s)) eqn:Ev; [| done].
  destruct (Qeq_bool (filterFrequency prev) (filterFrequency s)) eqn:Ef; [| done].
  destruct (Qeq_bool (filterQ prev) (filterQ s)) eqn:Eq; [| done].
  destruct Hne. by rewrite <- !Qeq_bool_iff.
Qed.

(** C10, as stated, fails where it says that the new values are scheduled on
    the gain stage: while stopped, a change of volume from 0.5 to 0.9 makes
    no call on the gain at all; only the two filter targets are set. *)
Lemma C10_volume_not_scheduled_while_stopped :
  update pink_stopped pink_stopped_louder (mkEnv 10 false 0) refs_pink_stopped
  = (refs_pink_stopped,
     [setTargetAtTime filter_frequency 5000 10 0.1;
      setTargetAtTime filter_Q 1 10 0.1])
  /\ count_calls is_gain_call
       (snd (update pink_stopped pink_stopped_louder (mkEnv 10 false 0) refs_pink_stopped))
     = 0%nat.
Proof.
  rewrite (params_render pink_stopped pink_stopped_louder (mkEnv 10 false 0)
             refs_pink_stopped
             (mount_supported window_44100 (rng_const 0.5) pink_stopped (mkEnv 0 true 0)
                (mkAudioContext 44100) eq_refl)
             eq_refl eq_refl).
  split; reflexivity.
Qed.

(** C10, amended.  A render in which volume, filterFrequency or filterQ
    change while isPlaying and noiseColor stay leaves the refs as they are,
    the source with them, and makes no call on a source.  With the graph in
    the refs it schedules exactly this, at the current time and with time
    constant 0.1: the state's volume as the target of the gain, only while
    playing, then the state's filterFrequency and filterQ as the targets of
    the filter. *)
Theorem C10_parameter_change_retargets (prev s : AudioState) (env : Env) (r : Refs) :
  isPlaying s = isPlaying prev ->
  noiseColor s = noiseColor prev ->
  ~ (volume prev == volume s /\ filterFrequency prev == filterFrequency s
     /\ filterQ prev == filterQ s) ->
  let tr := snd (update prev s env r) in
  fst (update prev s env r) = r
  /\ count_calls is_source_stop tr = 0%nat
  /\ count_calls is_source_disconnect tr = 0%nat
  /\ count_calls is_createBufferSource tr = 0%nat
  /\ count_calls is_source_start tr = 0%nat
  /\ (is_Some (audioCtxRef r) -> is_Some (gainNodeRef r) -> is_Some (filterNodeRef r) ->
      tr = (if isPlaying s
            then [setTargetAtTime gain_gain (volume s) (currentTime env) 0.1]
            else [])
           ++ [setTargetAtTime filter_frequency (filterFrequency s) (currentTime env) 0.1;
               setTargetAtTime filter_Q (filterQ s) (currentTime env) 0.1]).
Proof.
  intros Hp Hc Hne tr. subst tr. rewrite update_unfold.
  assert (Hd : source_deps_changed prev s = false).
  { unfold source_deps_changed. rewrite Hp, Hc.
    destruct (isPlaying prev), (noiseColor prev); done. }
  rewrite Hd, (params_changed prev s Hne). cbn [fst snd app].
  unfold params_effect.
  destruct (audioCtxRef r) as [c|], (gainNodeRef r) as [gn|], (filterNodeRef r) as [f|];
    try (repeat split; try reflexivity; intros Hx Hy Hz;
         first [by destruct Hx | by destruct Hy | by destruct Hz]).
  destruct (isPlaying s); repeat split; reflexivity.
Qed.

Lemma C10_parameter_change_retargets_witness :
  ~ (volume pink_playing == volume pink_quieter
     /\ filterFrequency pink_playing == filterFrequency pink_quieter
     /\ filterQ pink_playing == filterQ pink_quieter)
  /\ snd (update pink_playing pink_quieter (mkEnv 10 false 0.5) refs_pink_playing)
     = [setTargetAtTime gain_gain 0.25 10 0.1;
        setTargetAtTime filter_frequency 5000 10 0.1;
        setTargetAtTime filter_Q 1 10 0.1].
Proof.
  assert (Hne : ~ (volume pink_playing == volume pink_quieter
                   /\ filterFrequency pink_playing == filterFrequency pink_quieter
                   /\ filterQ pink_playing == filterQ pink_quieter)).
  { intros (H & _). vm_compute in H. discriminate H. }
  split; [exact Hne |].
  pose proof (C10_parameter_change_retargets pink_playing pink_quieter
                (mkEnv 10 false 0.5) refs_pink_playing eq_refl eq_refl Hne)
    as (_ & _ & _ & _ & _ & H).
  exact (H (proj1 refs_pink_playing_supported)
           (proj1 (proj2 refs_pink_playing_supported))
           (proj1 (proj2 (proj2 refs_pink_playing_supported)))).
Defined.

(** ** No audio *)

Lemma update_unsupported (prev s : AudioState) (env : Env) (r : Refs) :
  unsupported r -> update prev s env r = (r, []).
Proof.
  intros Hun. rewrite update_unfold.
  rewrite source_effect_unsupported, params_effect_unsupported by done.
  by destruct (source_deps_changed prev s), (params_deps_changed prev s).
Qed.

Lemma updates_unsupported (inputs : list (AudioState * Env)) :
  forall prev r, unsupported r ->
                 snd (updates prev r inputs) = [] /\ snd (fst (updates prev r inputs)) = r.
Proof.
  induction inputs as [|[s env] rest IH]; intros prev r Hun; cbn [updates].
  - done.
  - rewrite (update_unsupported prev s env r Hun).
    destruct (IH s r Hun) as [Ht Hr].
    destruct (updates s r rest) as [[last r2] t2]. cbn [fst snd] in *. by subst.
Qed.

Lemma bar_body_reads_no_frame (canvas_height barWidth : Q) (dataArray : list N)
  (primaryColor : string) (n : nat) :
  frames_read (snd (for_loop n 0 (bar_body canvas_height barWidth dataArray primaryColor)
                             (0, []))) = 0%nat.
Proof.
  replace n with (0 + n)%nat by lia.
  apply (for_loop_inv (bar_body canvas_height barWidth dataArray primaryColor)
           (fun _ s => frames_read (snd s) = 0%nat) n 0).
  - reflexivity.
  - intros j [x calls] _ H. unfold bar_body. cbn [snd] in *.
    unfold frames_read in *. by rewrite List.filter_app, length_app, H.
Qed.

Lemma draw_reads_one_frame (canvas_width canvas_height : Q) (bufferLength : nat)
  (dataArray : list N) (playing : bool) (primaryColor : string) :
  frames_read (draw canvas_width canvas_height bufferLength dataArray playing primaryColor)
  = 1%nat.
Proof.
  unfold draw. destruct playing; cbn [negb]; [| reflexivity].
  pose proof (bar_body_reads_no_frame canvas_height
                (canvas_width / inject_Z (Z.of_nat bufferLength) * 2.5)
                dataArray primaryColor bufferLength) as H.
  unfold frames_read in *. cbn [app List.filter is_getByteFrequencyData length].
  by rewrite H.
Qed.

(** With a canvas, a 2d context and an analyser, every run of [draw] reads
    one frame of the spectrum. *)
Lemma Visualizer_effect_reads_frames (cv : Canvas) (a : AnalyserNode)
  (spectrum : nat -> list N) (playing : bool) (primaryColor : string) (callbacks : nat) :
  cv_context2d cv = true ->
  frames_read (Visualizer_effect (Some cv) (Some a) spectrum playing primaryColor callbacks)
  = S callbacks.
Proof.
  intros H2d. unfold Visualizer_effect. rewrite H2d.
  generalize (S callbacks). intros n.
  induction n as [|n IH].
  - reflexivity.
  - rewrite seq_S, fmap_app, concat_app. cbn [fmap list_fmap concat].
    rewrite app_nil_r. unfold frames_read in *.
    rewrite List.filter_app, length_app, IH.
    pose proof (draw_reads_one_frame (cv_width cv) (cv_height cv) (frequencyBinCount a)
                  (spectrum (0 + n)%nat) playing primaryColor) as H1.
    unfold frames_read in H1. rewrite H1. lia.
Qed.

(** C8, as stated, fails where it says that spectrum access yields empty
    frames.  Without a constructor the hook returns no analyser, also after
    a play request, and the visualizer's effect then returns at once: over
    [draw]'s first run and two animation frames it reads no frame of the
    spectrum, where with an analyser, be its spectrum all zero, it reads
    three. *)
Lemma C8_no_frame_is_read :
  useNoiseAudio_result
    (snd (fst (updates pink_stopped
                 (fst (fst (mount window_none (rng_const 0.5) pink_stopped (mkEnv 0 true 0))))
                 [(pink_playing, mkEnv 1 true 0)])))
  = None
  /\ frames_read
       (Visualizer_effect (Some (mkCanvas 300 150 true))
          (useNoiseAudio_result
             (snd (fst (updates pink_stopped
                          (fst (fst (mount window_none (rng_const 0.5) pink_stopped
                                           (mkEnv 0 true 0))))
                          [(pink_playing, mkEnv 1 true 0)]))))
          (fun _ => replicate 1024 0%N) true "#f472b6" 2)
     = 0%nat
  /\ frames_read
       (Visualizer_effect (Some (mkCanvas 300 150 true)) (Some (mkAnalyser 2048))
          (fun _ => replicate 1024 0%N) true "#f472b6" 2)
     = 3%nat.
Proof.
  split; [reflexivity |]. split; [reflexivity |].
  by apply Visualizer_effect_reads_frames.
Qed.

(** C8, amended.  Without an [AudioContext] constructor the mount and every
    render after it make no call on any audio object, so none that could
    fail: every play request is ignored, no source is ever created or
    started and the refs stay empty.  The hook returns no analyser, and with
    it the visualizer's effect returns at once: it reads no frame of the
    spectrum and paints nothing. *)
Theorem C8_no_audio_context_is_inert (w : Window) (g : Rng) (s0 : AudioState) (env0 : Env)
  (inputs : list (AudioState * Env)) (canvas : option Canvas) (spectrum : nat -> list N)
  (playing : bool) (primaryColor : string) (callbacks : nat) :
  AudioContextClass w = None ->
  let r0 := fst (fst (mount w g s0 env0)) in
  let r := snd (fst (updates s0 r0 inputs)) in
  snd (fst (mount w g s0 env0)) = []
  /\ snd (updates s0 r0 inputs) = []
  /\ r = refs_initial
  /\ sourceNodeRef r = None
  /\ useNoiseAudio_result r0 = None
  /\ useNoiseAudio_result r = None
  /\ Visualizer_effect canvas (useNoiseAudio_result r) spectrum playing primaryColor callbacks
     = [].
Proof.
  intros Hw r0 r. subst r r0.
  assert (Hm : mount w g s0 env0 = (refs_initial, [], g)).
  { unfold mount. rewrite (init_effect_unsupported w g Hw).
    rewrite source_effect_unsupported, params_effect_unsupported by done. done. }
  rewrite Hm. cbn [fst snd].
  destruct (updates_unsupported inputs s0 refs_initial) as [Ht Hr]; [done |].
  rewrite Ht, Hr. repeat split. by destruct canvas.
Qed.

Lemma C8_no_audio_context_is_inert_witness :
  AudioContextClass window_none = None
  /\ snd (updates pink_stopped
            (fst (fst (mount window_none (rng_const 0.5) pink_stopped (mkEnv 0 true 0))))
            [(pink_playing, mkEnv 1 true 0); (brown_playing, mkEnv 2 true 0)]) = [].
Proof.
  split; [reflexivity |].
  exact (proj1 (proj2 (C8_no_audio_context_is_inert window_none (rng_const 0.5) pink_stopped
                         (mkEnv 0 true 0)
                         [(pink_playing, mkEnv 1 true 0); (brown_playing, mkEnv 2 true 0)]
                         None (fun _ => []) true "#f472b6" 0 eq_refl))).
Defined.

(** ** Color change while playing *)

(** The trace of a render that runs the source effect on an engine with
    audio, in full. *)
Lemma update_source_trace (prev s : AudioState) (env : Env) (r : Refs) :
  supported prev r ->
  source_deps_changed prev s = true ->
  snd (update prev s env r)
  = (if isPlaying prev then [source_stop; source_disconnect] else [])
    ++ (if isPlaying s
        then (if ctx_suspended env then [ctx_resume] else [])
             ++ [createBufferSource; source_connect_filter; source_start;
                 cancelScheduledValues gain_gain (currentTime env);
                 setValueAtTime gain_gain 0 (currentTime env);
                 linearRampToValueAtTime gain_gain (volume s) (currentTime env + 0.1)]
        else [cancelScheduledValues gain_gain (currentTime env);
              setValueAtTime gain_gain (gain_value env) (currentTime env);
              linearRampToValueAtTime gain_gain 0 (currentTime env + 0.1)])
    ++ (if params_deps_changed prev s
        then (if isPlaying s
              then [setTargetAtTime gain_gain (volume s) (currentTime env) 0.1]
              else [])
             ++ [setTargetAtTime filter_frequency (filterFrequency s) (currentTime env) 0.1;
                 setTargetAtTime filter_Q (filterQ s) (currentTime env) 0.1]
        else []).
Proof.
  intros Hsup Hd. rewrite update_unfold, Hd. cbn [snd].
  destruct (source_effect_supported prev s env r Hsup) as (buf & _ & ->). cbn [snd].
  rewrite (params_effect_supported prev s env r Hsup).
  by rewrite <- app_assoc.
Qed.

(** C2, as stated, fails: while PINK plays at volume 0.5 with the gain at
    0.5, a change to BROWN sets the gain to 0 at the current time and ramps
    it up from there; no call starts the ramp from the current gain. *)
Lemma C2_color_change_sets_gain_to_zero :
  snd (update pink_playing brown_playing (mkEnv 10 false 0.5) refs_pink_playing)
  = [source_stop; source_disconnect;
     createBufferSource; source_connect_filter; source_start;
     cancelScheduledValues gain_gain 10;
     setValueAtTime gain_gain 0 10;
     linearRampToValueAtTime gain_gain 0.5 (10 + 0.1)]
  /\ ~ In (setValueAtTime gain_gain (gain_value (mkEnv 10 false 0.5)) 10)
          (snd (update pink_playing brown_playing (mkEnv 10 false 0.5) refs_pink_playing)).
Proof.
  rewrite (update_source_trace pink_playing brown_playing (mkEnv 10 false 0.5)
             refs_pink_playing refs_pink_playing_supported eq_refl).
  split; [reflexivity |].
  cbn [In app isPlaying pink_playing brown_playing ctx_suspended params_deps_changed].
  intros H. vm_compute in H. intuition discriminate.
Qed.

(** C2, amended.  On an engine with audio, a render that changes the color
    while playing makes exactly one detach ([stop], [disconnect]) and one
    attach ([createBufferSource], [connect], [start]), in that order, and
    restarts the gain from zero: it cancels the scheduled values, sets the
    gain to 0 at the current time and ramps it linearly to the state's
    volume, reached 0.1 s later. *)
Theorem C2_color_change_restarts_source (prev s : AudioState) (env : Env) (r : Refs) :
  reachable prev r ->
  is_Some (audioCtxRef r) ->
  isPlaying prev = true ->
  isPlaying s = true ->
  noiseColor s <> noiseColor prev ->
  let tr := snd (update prev s env r) in
  count_calls is_source_stop tr = 1%nat
  /\ count_calls is_source_disconnect tr = 1%nat
  /\ count_calls is_createBufferSource tr = 1%nat
  /\ count_calls is_source_start tr = 1%nat
  /\ exists resumed rest,
       tr = [source_stop; source_disconnect] ++ resumed
            ++ [createBufferSource; source_connect_filter; source_start;
                cancelScheduledValues gain_gain (currentTime env);
                setValueAtTime gain_gain 0 (currentTime env);
                linearRampToValueAtTime gain_gain (volume s) (currentTime env + 0.1)]
            ++ rest
       /\ resumed = (if ctx_suspended env then [ctx_resume] else [])
       /\ Forall (fun c => is_setTargetAtTime c = true) rest.
Proof.
  intros Hr Hctx Hp Hs Hne tr. subst tr.
  pose proof (reachable_supported prev r Hr Hctx) as Hsup.
  rewrite (update_source_trace prev s env r Hsup (color_change_deps prev s Hne)).
  rewrite Hp, Hs.
  repeat split.
  1-4: destruct (ctx_suspended env), (params_deps_changed prev s); reflexivity.
  exists (if ctx_suspended env then [ctx_resume] else []).
  eexists. split; [rewrite <- app_assoc; reflexivity |].
  split; [reflexivity |].
  destruct (params_deps_changed prev s); repeat constructor.
Qed.

Lemma C2_color_change_restarts_source_witness :
  reachable pink_playing refs_pink_playing
  /\ is_Some (audioCtxRef refs_pink_playing)
  /\ count_calls is_source_start
       (snd (update pink_playing brown_playing (mkEnv 10 false 0.5) refs_pink_playing))
     = 1%nat.
Proof.
  assert (Hr : reachable pink_playing refs_pink_playing) by apply reachable_mount.
  assert (Hc : is_Some (audioCtxRef refs_pink_playing))
    by exact (proj1 refs_pink_playing_supported).
  assert (Hne : noiseColor brown_playing <> noiseColor pink_playing) by (vm_compute; discriminate).
  split; [exact Hr | split; [exact Hc |]].
  apply (C2_color_change_restarts_source pink_playing brown_playing (mkEnv 10 false 0.5)
           refs_pink_playing Hr Hc eq_refl eq_refl Hne).
Defined.

(** ** Stopping *)

(** A render that stops a playing engine, in full. *)
Lemma stop_render (prev s : AudioState) (env : Env) (r : Refs) :
  supported prev r ->
  isPlaying prev = true ->
  isPlaying s = false ->
  update prev s env r
  = (set_sourceNodeRef r None,
     [source_stop; source_disconnect;
      cancelScheduledValues gain_gain (currentTime env);
      setValueAtTime gain_gain (gain_value env) (currentTime env);
      linearRampToValueAtTime gain_gain 0 (currentTime env + 0.1);
      setTargetAtTime filter_frequency (filterFrequency s) (currentTime env) 0.1;
      setTargetAtTime filter_Q (filterQ s) (currentTime env) 0.1]).
Proof.
  intros Hsup Hp Hs.
  destruct (play_change_deps prev s) as [Hd1 Hd2]; [congruence |].
  rewrite update_unfold, Hd1, Hd2.
  destruct (source_effect_supported prev s env r Hsup) as (buf & _ & ->).
  rewrite (params_effect_supported prev s env r Hsup), Hp, Hs.
  reflexivity.
Qed.

(** C3 at a failing input: PINK plays with the gain at 0.5 and the state
    arrives with [isPlaying] false at time 10.  The source is stopped and
    disconnected first, at time 10, and the source ref is cleared; only then
    is the ramp from 0.5 to 0 scheduled, to end at 10.1. *)
Lemma C3_stop_detaches_source_before_ramp :
  snd (update pink_playing pink_stopped (mkEnv 10 false 0.5) refs_pink_playing)
  = [source_stop; source_disconnect;
     cancelScheduledValues gain_gain 10;
     setValueAtTime gain_gain 0.5 10;
     linearRampToValueAtTime gain_gain 0 (10 + 0.1);
     setTargetAtTime filter_frequency 5000 10 0.1;
     setTargetAtTime filter_Q 1 10 0.1]
  /\ sourceNodeRef
       (fst (update pink_playing pink_stopped (mkEnv 10 false 0.5) refs_pink_playing))
     = None.
Proof.
  rewrite (stop_render pink_playing pink_stopped (mkEnv 10 false 0.5) refs_pink_playing
             refs_pink_playing_supported eq_refl eq_refl).
  split; reflexivity.
Qed.

(** ** Parameter values *)

Lemma source_effect_passes_state (s : AudioState) (env : Env) (r : Refs) :
  Forall (call_passes_state s env) (snd (source_effect s env r)).
Proof.
  unfold source_effect.
  destruct (audioCtxRef r), (gainNodeRef r), (filterNodeRef r);
    try apply List.Forall_nil.
  destruct (sourceNodeRef r), (isPlaying s), (ctx_suspended env);
    try destruct (buffersRef _ (noiseColor s)); cbn [snd app];
    repeat (apply List.Forall_cons; [cbn [call_passes_state]; tauto |]);
    apply List.Forall_nil.
Qed.

Lemma params_effect_passes_state (s : AudioState) (env : Env) (r : Refs) :
  Forall (call_passes_state s env) (params_effect s env r).
Proof.
  unfold params_effect.
  destruct (audioCtxRef r), (gainNodeRef r), (filterNodeRef r);
    try apply List.Forall_nil.
  destruct (isPlaying s); cbn [app];
    repeat (apply List.Forall_cons; [reflexivity |]); apply List.Forall_nil.
Qed.

Lemma update_passes_state (prev s : AudioState) (env : Env) (r : Refs) :
  Forall (call_passes_state s env) (snd (update prev s env r)).
Proof.
  rewrite update_unfold. cbn [snd]. apply Forall_app. split.
  - destruct (source_deps_changed prev s);
      [apply source_effect_passes_state | apply List.Forall_nil].
  - destruct (params_deps_changed prev s);
      [apply params_effect_passes_state | apply List.Forall_nil].
Qed.

Lemma mount_passes_state (w : Window) (g : Rng) (s : AudioState) (env : Env) :
  Forall (call_passes_state s env) (snd (fst (mount w g s env))).
Proof.
  unfold mount.
  assert (H0 : Forall (call_passes_state s env) (snd (fst (init_effect w g refs_initial)))).
  { unfold init_effect. destruct (AudioContextClass w); [| apply List.Forall_nil].
    destruct (fold_left _ _ _). cbn [fst snd].
    repeat (apply List.Forall_cons; [exact I |]). apply List.Forall_nil. }
  destruct (init_effect w g refs_initial) as [[r0 t0] g0]. cbn [fst snd] in H0.
  pose proof (source_effect_passes_state s env r0) as H1.
  destruct (source_effect s env r0) as [r1 t1]. cbn [fst snd] in *.
  rewrite !Forall_app. repeat split; try done. apply params_effect_passes_state.
Qed.

Lemma passed_value_in_domain (s : AudioState) (env : Env) (c : Call) :
  state_in_domain s -> in_domain gain_gain (gain_value env) ->
  call_passes_state s env c -> call_in_domain c.
Proof.
  intros (Hv & Hf & Hq) Hg.
  destruct c as [| | | | | | | | | | | | | p t | p v t | p v t | p v t tc];
    cbn [call_passes_state call_in_domain]; try done.
  - intros [-> [-> | ->]]; [cbn; lra | done].
  - intros [-> [-> | ->]]; [cbn; lra | done].
  - intros ->. by destruct p.
Qed.

(** C1, as stated, fails: while PINK plays, a state with volume 2,
    filterFrequency 50000 and filterQ -1 reaches the three parameters as it
    is; none of the three targets is in its domain. *)
Lemma C1_values_reach_graph_unclamped :
  snd (update pink_playing pink_out_of_range (mkEnv 10 false 0.5) refs_pink_playing)
  = [setTargetAtTime gain_gain 2 10 0.1;
     setTargetAtTime filter_frequency 50000 10 0.1;
     setTargetAtTime filter_Q (-1) 10 0.1]
  /\ ~ in_domain gain_gain 2
  /\ ~ in_domain filter_frequency 50000
  /\ ~ in_domain filter_Q (-1)
  /\ ~ Forall call_in_domain
         (snd (update pink_playing pink_out_of_range (mkEnv 10 false 0.5) refs_pink_playing)).
Proof.
  rewrite (params_render pink_playing pink_out_of_range (mkEnv 10 false 0.5)
             refs_pink_playing refs_pink_playing_supported eq_refl eq_refl).
  split; [reflexivity |].
  assert (H1 : ~ in_domain gain_gain 2) by (cbn; lra).
  assert (H2 : ~ in_domain filter_frequency 50000) by (cbn; lra).
  assert (H3 : ~ in_domain filter_Q (-1)) by (cbn; lra).
  repeat split; try done.
  intros HF. apply Forall_inv in HF. exact (H1 HF).
Qed.

(** C1, amended.  The core does not clamp.  On the mount and on every
    render, each value given to a parameter is the state's own volume,
    filterFrequency or filterQ as supplied (on the gain also the 0 and the
    current gain that the fades start from and end at); so the values lie in
    the documented domains whenever those of the supplied state do. *)
Theorem C1_values_pass_unchanged (w : Window) (g : Rng) (prev s : AudioState) (env : Env)
  (r : Refs) :
  Forall (call_passes_state s env) (snd (fst (mount w g s env)))
  /\ Forall (call_passes_state s env) (snd (update prev s env r))
  /\ (state_in_domain s -> in_domain gain_gain (gain_value env) ->
      Forall call_in_domain (snd (fst (mount w g s env)))
      /\ Forall call_in_domain (snd (update prev s env r))).
Proof.
  pose proof (mount_passes_state w g s env) as Hm.
  pose proof (update_passes_state prev s env r) as Hu.
  split; [exact Hm | split; [exact Hu |]].
  intros Hs Hg. split.
  - eapply Forall_impl; [exact Hm |]. intros c. by apply passed_value_in_domain.
  - eapply Forall_impl; [exact Hu |]. intros c. by apply passed_value_in_domain.
Qed.

Lemma C1_values_pass_unchanged_witness :
  state_in_domain pink_quieter
  /\ in_domain gain_gain (gain_value (mkEnv 10 false 0.5))
  /\ Forall call_in_domain
       (snd (update pink_playing pink_quieter (mkEnv 10 false 0.5) refs_pink_playing)).
Proof.
  assert (Hs : state_in_domain pink_quieter).
  { vm_compute. repeat split; discriminate. }
  assert (Hg : in_domain gain_gain (gain_value (mkEnv 10 false 0.5))).
  { vm_compute. split; discriminate. }
  split; [exact Hs | split; [exact Hg |]].
  exact (proj2 (proj2 (proj2 (C1_values_pass_unchanged window_44100 (rng_const 0.5)
                                 pink_playing pink_quieter (mkEnv 10 false 0.5)
                                 refs_pink_playing)) Hs Hg)).
Defined.

(** * More of the generator *)

Lemma advance_0 (g : Rng) : advance g 0 = g.
Proof. destruct g. unfold advance. cbn [draws next]. by rewrite Nat.add_0_r. Qed.

Lemma advance_advance (g : Rng) (a b : nat) : advance (advance g a) b = advance g (a + b).
Proof. unfold advance. cbn [draws next]. f_equal. lia. Qed.

Lemma filled_eq (sample : nat -> Q) (size : nat) (output : list Q) :
  filled sample size size output -> output = sample <$> seq 0 size.
Proof.
  intros [Hlen Hpre]. apply list_eq. intros i.
  rewrite list_lookup_fmap. destruct (decide (i < size)%nat) as [Hi | Hi].
  - rewrite (Hpre i Hi), lookup_seq_lt by done. done.
  - rewrite lookup_seq_ge by lia. cbn. apply lookup_ge_None. lia.
Qed.

(** The buffer, as a list: the samples of the branch at indices
    [0 .. 5 * sampleRate - 1]. *)
Lemma createNoiseBuffer_samples (ctx : AudioContext) (type : NoiseColor) (g : Rng) :
  channelData (fst (createNoiseBuffer ctx type g))
  = sample_of type g <$> seq 0 (N.to_nat (sampleRate ctx * 5)).
Proof.
  destruct (createNoiseBuffer_spec ctx type g) as (_ & _ & Hfill).
  by apply filled_eq.
Qed.

(** X1.  Whatever the color, [createNoiseBuffer] calls [Math.random] exactly
    [5 * sampleRate] times and returns a mono buffer at the context's rate. *)
Theorem createNoiseBuffer_draw_count (ctx : AudioContext) (type : NoiseColor) (g : Rng) :
  next (snd (createNoiseBuffer ctx type g)) = (next g + N.to_nat (5 * sampleRate ctx))%nat
  /\ draws (snd (createNoiseBuffer ctx type g)) = draws g
  /\ numberOfChannels (fst (createNoiseBuffer ctx type g)) = 1%N
  /\ bufSampleRate (fst (createNoiseBuffer ctx type g)) = sampleRate ctx.
Proof.
  destruct (createNoiseBuffer_spec ctx type g) as (Hg & _ & _).
  rewrite Hg, (N.mul_comm 5). unfold advance. cbn [next draws]. repeat split.
  all: unfold createNoiseBuffer; cbn [createBuffer channelData];
    set (len := N.to_nat (sampleRate ctx * 5)); destruct type;
    [ destruct (white_loop_spec g len len (le_n len)) as (output & -> & _)
    | destruct (pink_loop_spec g len len (le_n len)) as (output & -> & _)
    | destruct (brown_loop_spec g len len (le_n len)) as (output & -> & _) ];
    reflexivity.
Qed.

(** X2.  A WHITE sample is made from its own draw alone: two random sources
    that agree on the draw of iteration [i] give the same sample [i],
    whatever their other draws are, and the sample is in [[-1, 1]] as soon
    as that one draw is in [[0, 1]]. *)
Theorem white_sample_depends_on_its_draw (ctx : AudioContext) (g g' : Rng) (i : nat) :
  (i < N.to_nat (5 * sampleRate ctx))%nat ->
  draws g (next g + i) = draws g' (next g' + i) ->
  channelData (fst (createNoiseBuffer ctx WHITE g)) !! i
  = channelData (fst (createNoiseBuffer ctx WHITE g')) !! i
  /\ (0 <= draws g (next g + i) <= 1 ->
      exists v, channelData (fst (createNoiseBuffer ctx WHITE g)) !! i = Some v
                /\ -1 <= v <= 1).
Proof.
  intros Hi Hd.
  destruct (createNoiseBuffer_spec ctx WHITE g) as (_ & _ & _ & Hpre).
  destruct (createNoiseBuffer_spec ctx WHITE g') as (_ & _ & _ & Hpre').
  rewrite Hpre, Hpre' by lia. cbn [sample_of]. unfold white_sample, white_at.
  split; [by rewrite Hd |].
  intros Hr. eexists. split; [reflexivity | lra].
Qed.

Lemma white_sample_depends_on_its_draw_witness :
  (1 < N.to_nat (5 * sampleRate (mkAudioContext 2)))%nat
  /\ channelData (fst (createNoiseBuffer (mkAudioContext 2) WHITE (rng_const 0.75))) !! 1%nat
     = channelData (fst (createNoiseBuffer (mkAudioContext 2) WHITE (rng_first 0.1 0.75)))
         !! 1%nat.
Proof.
  assert (H : (1 < N.to_nat (5 * sampleRate (mkAudioContext 2)))%nat) by (vm_compute; lia).
  split; [exact H |].
  exact (proj1 (white_sample_depends_on_its_draw (mkAudioContext 2) (rng_const 0.75)
                  (rng_first 0.1 0.75) 1 H eq_refl)).
Defined.

Lemma brown_step_bound (g : Rng) (m : nat) :
  draws_in_range g ->
  Qabs (brown_lastOut g (S m) * 3.5 - brown_lastOut g m * 3.5) <= 7 # 51.
Proof.
  intros Hg. pose proof (brown_lastOut_range g m Hg) as Hm.
  pose proof (white_at_range g m Hg) as Hw.
  cbn [brown_lastOut].
  set (y := brown_lastOut g m + 0.02 * white_at g m).
  assert (E : y == (y / 1.02) * 1.02) by field.
  apply Qabs_Qle_condition. subst y. lra.
Qed.

(** X3.  For draws in range the BROWN buffer starts within 0.07 of zero and
    moves by at most 0.14 from one sample to the next. *)
Theorem brown_buffer_is_smooth (ctx : AudioContext) (g : Rng) (i : nat) (a b : Q) :
  draws_in_range g ->
  channelData (fst (createNoiseBuffer ctx BROWN g)) !! i = Some a ->
  channelData (fst (createNoiseBuffer ctx BROWN g)) !! S i = Some b ->
  Qabs (b - a) <= 0.14
  /\ (i = 0%nat -> Qabs a <= 0.07).
Proof.
  intros Hg Ha Hb.
  destruct (createNoiseBuffer_spec ctx BROWN g) as (_ & _ & Hlen & Hpre).
  assert (Hi : (S i < N.to_nat (sampleRate ctx * 5))%nat).
  { rewrite <- Hlen. by eapply lookup_lt_Some. }
  rewrite (Hpre i) in Ha by lia. rewrite (Hpre (S i)) in Hb by lia.
  injection Ha as <-. injection Hb as <-. cbn [sample_of]. unfold brown_sample.
  split; [eapply Qle_trans; [by apply brown_step_bound | by vm_compute] |].
  intros ->. pose proof (brown_step_bound g 0 Hg) as H0.
  cbn [brown_lastOut] in H0 |- *.
  apply Qabs_Qle_condition. apply Qabs_Qle_condition in H0.
  pose proof (white_at_range g 0 Hg) as Hw.
  set (y := 0 + 0.02 * white_at g 0) in *.
  assert (E : y == (y / 1.02) * 1.02) by field.
  subst y. lra.
Qed.

Lemma brown_buffer_is_smooth_witness :
  draws_in_range (rng_const 0.75)
  /\ Qabs ((707000000000 # 10404000000000) - (350000 # 10200000)) <= 0.14.
Proof.
  assert (H : draws_in_range (rng_const 0.75)).
  { intros n. vm_compute. split; discriminate. }
  split; [exact H |].
  assert (Ha : channelData (fst (createNoiseBuffer (mkAudioContext 2) BROWN (rng_const 0.75)))
               !! 0%nat = Some (350000 # 10200000)) by (vm_compute; reflexivity).
  assert (Hb : channelData (fst (createNoiseBuffer (mkAudioContext 2) BROWN (rng_const 0.75)))
               !! 1%nat = Some (707000000000 # 10404000000000)) by (vm_compute; reflexivity).
  exact (proj1 (brown_buffer_is_smooth (mkAudioContext 2) (rng_const 0.75) 0 _ _ H Ha Hb)).
Defined.

Lemma white_at_mirror (g : Rng) (m : nat) : white_at (mirror g) m == - white_at g m.
Proof. unfold white_at, mirror. cbn [draws next]. ring. Qed.

Lemma brown_lastOut_mirror (g : Rng) (m : nat) :
  brown_lastOut (mirror g) m == - brown_lastOut g m.
Proof.
  induction m as [|m IH]; cbn [brown_lastOut]; [reflexivity |].
  rewrite IH, white_at_mirror. field.
Qed.

Lemma pink_state_mirror (g : Rng) (m : nat) :
  b0 (pink_state (mirror g) m) == - b0 (pink_state g m)
  /\ b1 (pink_state (mirror g) m) == - b1 (pink_state g m)
  /\ b2 (pink_state (mirror g) m) == - b2 (pink_state g m)
  /\ b3 (pink_state (mirror g) m) == - b3 (pink_state g m)
  /\ b4 (pink_state (mirror g) m) == - b4 (pink_state g m)
  /\ b5 (pink_state (mirror g) m) == - b5 (pink_state g m)
  /\ b6 (pink_state (mirror g) m) == - b6 (pink_state g m).
Proof.
  induction m as [|m (H0 & H1 & H2 & H3 & H4 & H5 & H6)];
    cbn [pink_state pink_init b0 b1 b2 b3 b4 b5 b6].
  - repeat split; reflexivity.
  - pose proof (white_at_mirror g m) as Hw. repeat split; lra.
Qed.

Lemma sample_of_mirror (type : NoiseColor) (g : Rng) (m : nat) :
  sample_of type (mirror g) m == - sample_of type g m.
Proof.
  destruct type; cbn [sample_of].
  - apply white_at_mirror.
  - unfold pink_sample. cbv zeta.
    pose proof (white_at_mirror g m) as Hw.
    destruct (pink_state_mirror g m) as (_ & _ & _ & _ & _ & _ & H6).
    destruct (pink_state_mirror g (S m)) as (H0 & H1 & H2 & H3 & H4 & H5 & _).
    lra.
  - unfold brown_sample. rewrite brown_lastOut_mirror. ring.
Qed.

(** X4.  The generator is odd in the noise: replacing every draw [r] by
    [1 - r], which flips the sign of every white value, flips the sign of
    every sample of the buffer, whatever the color. *)
Theorem mirrored_draws_negate_buffer (ctx : AudioContext) (type : NoiseColor) (g : Rng) :
  Forall2 (fun a b => a == - b)
          (channelData (fst (createNoiseBuffer ctx type (mirror g))))
          (channelData (fst (createNoiseBuffer ctx type g))).
Proof.
  rewrite !createNoiseBuffer_samples.
  apply Forall2_fmap, Forall_Forall2_diag, Forall_forall.
  intros m _. apply sample_of_mirror.
Qed.

(** X5.  The samples do not depend on the sample rate: with the same draws,
    the buffer made for a lower rate is the beginning of the buffer made for
    a higher one. *)
Theorem buffer_is_prefix_of_longer (ctx1 ctx2 : AudioContext) (type : NoiseColor) (g : Rng) :
  (sampleRate ctx1 <= sampleRate ctx2)%N ->
  channelData (fst (createNoiseBuffer ctx1 type g))
  = take (N.to_nat (5 * sampleRate ctx1)) (channelData (fst (createNoiseBuffer ctx2 type g))).
Proof.
  intros Hle. rewrite !createNoiseBuffer_samples, <- fmap_take, take_seq.
  do 2 f_equal. lia.
Qed.

Lemma buffer_is_prefix_of_longer_witness :
  (sampleRate (mkAudioContext 1) <= sampleRate (mkAudioContext 2))%N
  /\ channelData (fst (createNoiseBuffer (mkAudioContext 1) BROWN (rng_const 0.75)))
     = take (N.to_nat (5 * sampleRate (mkAudioContext 1)))
            (channelData (fst (createNoiseBuffer (mkAudioContext 2) BROWN (rng_const 0.75)))).
Proof.
  assert (H : (sampleRate (mkAudioContext 1) <= sampleRate (mkAudioContext 2))%N)
    by (vm_compute; discriminate).
  split; [exact H |].
  apply (buffer_is_prefix_of_longer (mkAudioContext 1) (mkAudioContext 2) BROWN
           (rng_const 0.75) H).
Defined.

(** * More of the hook *)

Lemma count_calls_app (kind : Call -> bool) (t1 t2 : list Call) :
  count_calls kind (t1 ++ t2) = (count_calls kind t1 + count_calls kind t2)%nat.
Proof. unfold count_calls. by rewrite List.filter_app, length_app. Qed.

(** ** The mount *)

Lemma init_effect_full (w : Window) (g : Rng) (ctx : AudioContext) :
  AudioContextClass w = Some ctx ->
  exists bufs,
    init_effect w g refs_initial
    = (mkRefs (Some ctx) None (Some mkGainNode) (Some (mkFilter lowpass))
              (Some (mkAnalyser 2048)) bufs,
       [new_AudioContext; createGain; createBiquadFilter; createAnalyser;
        filter_connect_gain; gain_connect_analyser; analyser_connect_destination],
       advance g (3 * N.to_nat (sampleRate ctx * 5)))
    /\ forall c, bufs c = Some (buffer_of ctx g c).
Proof.
  intros Hw. unfold init_effect. rewrite Hw.
  cbn [fold_left NoiseColor_values refs_initial buffersRef sourceNodeRef fst snd].
  set (len := N.to_nat (sampleRate ctx * 5)).
  pose proof (createNoiseBuffer_spec ctx WHITE g) as (Hg1 & _).
  destruct (createNoiseBuffer ctx WHITE g) as [bw g1] eqn:Ew.
  cbn [fst snd] in Hg1 |- *. fold len in Hg1. subst g1.
  pose proof (createNoiseBuffer_spec ctx PINK (advance g len)) as (Hg2 & _).
  destruct (createNoiseBuffer ctx PINK (advance g len)) as [bp g2] eqn:Ep.
  cbn [fst snd] in Hg2 |- *. fold len in Hg2. subst g2.
  pose proof (createNoiseBuffer_spec ctx BROWN (advance (advance g len) len)) as (Hg3 & _).
  destruct (createNoiseBuffer ctx BROWN (advance (advance g len) len)) as [bb g3] eqn:Eb.
  cbn [fst snd] in Hg3 |- *. fold len in Hg3. subst g3.
  eexists. split.
  - rewrite !advance_advance. do 2 f_equal. lia.
  - intros c. unfold buffer_of, set_buffer. fold len.
    destruct c; cbn [NoiseColor_eqb color_index].
    + replace (0 * len)%nat with 0%nat by lia. by rewrite advance_0, Ew.
    + replace (1 * len)%nat with len by lia. by rewrite Ep.
    + replace (2 * len)%nat with (len + len)%nat by lia.
      by rewrite <- advance_advance, Eb.
Qed.

Lemma engine_of_supported (ctx : AudioContext) (g : Rng) (last : AudioState) (r : Refs) :
  engine_of ctx g last r -> supported last r.
Proof.
  intros (Hc & Hg & Hf & Ha & Hb & Hs). unfold supported.
  rewrite Hc, Hg, Hf, Ha, Hs.
  split; [eauto |]. split; [eauto |]. split; [eauto |]. split; [eauto |].
  split; [intros c; rewrite Hb; eauto |].
  destruct (isPlaying last); split; try done; eauto.
Qed.

Lemma source_effect_engine (ctx : AudioContext) (g : Rng) (prev s : AudioState) (env : Env)
  (r : Refs) :
  engine_of ctx g prev r -> engine_of ctx g s (fst (source_effect s env r)).
Proof.
  intros He. pose proof (engine_of_supported ctx g prev r He) as Hsup.
  destruct (source_effect_supported prev s env r Hsup) as (buf & Hbuf & ->).
  destruct He as (Hc & Hg & Hf & Ha & Hb & Hs).
  rewrite Hb in Hbuf. injection Hbuf as <-.
  cbn [fst]. unfold engine_of, set_sourceNodeRef.
  cbn [audioCtxRef gainNodeRef filterNodeRef analyserNodeRef buffersRef sourceNodeRef].
  done.
Qed.

Lemma update_engine (ctx : AudioContext) (g : Rng) (prev s : AudioState) (env : Env)
  (r : Refs) :
  engine_of ctx g prev r -> engine_of ctx g s (fst (update prev s env r)).
Proof.
  intros He. rewrite update_unfold. cbn [fst].
  destruct (source_deps_changed prev s) eqn:Hd; [by eapply source_effect_engine |].
  destruct (source_deps_unchanged prev s Hd) as [Hp Hcol].
  unfold engine_of in *. by rewrite <- Hp, <- Hcol.
Qed.

Lemma mount_engine (w : Window) (g : Rng) (s : AudioState) (env : Env) (ctx : AudioContext) :
  AudioContextClass w = Some ctx ->
  engine_of ctx g s (fst (fst (mount w g s env)))
  /\ snd (mount w g s env) = advance g (3 * N.to_nat (sampleRate ctx * 5)).
Proof.
  intros Hw. unfold mount.
  destruct (init_effect_full w g ctx Hw) as (bufs & -> & Hb).
  assert (He : engine_of ctx g (mkAudioState false 0 WHITE 0 0)
                 (mkRefs (Some ctx) None (Some mkGainNode) (Some (mkFilter lowpass))
                         (Some (mkAnalyser 2048)) bufs)).
  { unfold engine_of. cbn. done. }
  pose proof (source_effect_engine ctx g _ s env _ He) as He'.
  destruct (source_effect s env _) as [r1 t1]. done.
Qed.

Lemma updates_engine (ctx : AudioContext) (g : Rng) (inputs : list (AudioState * Env)) :
  forall prev r,
    engine_of ctx g prev r ->
    engine_of ctx g (fst (fst (updates prev r inputs))) (snd (fst (updates prev r inputs))).
Proof.
  induction inputs as [|[s env] rest IH]; intros prev r He; cbn [updates]; [done |].
  pose proof (update_engine ctx g prev s env r He) as He1.
  destruct (update prev s env r) as [r1 t1]. cbn [fst] in He1.
  specialize (IH s r1 He1).
  by destruct (updates s r1 rest) as [[last r2] t2].
Qed.

Lemma run_engine (w : Window) (g : Rng) (s0 : AudioState) (env0 : Env)
  (inputs : list (AudioState * Env)) (ctx : AudioContext) :
  AudioContextClass w = Some ctx ->
  engine_of ctx g (fst (fst (run w g s0 env0 inputs))) (snd (fst (run w g s0 env0 inputs))).
Proof.
  intros Hw. unfold run.
  destruct (mount_engine w g s0 env0 ctx Hw) as [He _].
  destruct (mount w g s0 env0) as [[r0 t0] g0]. cbn [fst] in He.
  pose proof (updates_engine ctx g inputs s0 r0 He) as He'.
  by destruct (updates s0 r0 inputs) as [[last r] t].
Qed.

Lemma source_effect_no_graph_call (s : AudioState) (env : Env) (r : Refs) :
  count_calls is_graph_call (snd (source_effect s env r)) = 0%nat.
Proof.
  unfold source_effect.
  destruct (audioCtxRef r), (gainNodeRef r), (filterNodeRef r); try reflexivity.
  destruct (sourceNodeRef r), (isPlaying s), (ctx_suspended env);
    try destruct (buffersRef _ (noiseColor s)); reflexivity.
Qed.

Lemma params_effect_only_targets (s : AudioState) (env : Env) (r : Refs) :
  count_calls is_graph_call (params_effect s env r) = 0%nat
  /\ count_calls is_source_call (params_effect s env r) = 0%nat
  /\ (isPlaying s = false -> count_calls is_gain_call (params_effect s env r) = 0%nat).
Proof.
  unfold params_effect.
  destruct (audioCtxRef r), (gainNodeRef r), (filterNodeRef r); try done.
  destruct (isPlaying s); done.
Qed.

Lemma update_no_graph_call (prev s : AudioState) (env : Env) (r : Refs) :
  count_calls is_graph_call (snd (update prev s env r)) = 0%nat.
Proof.
  rewrite update_unfold. cbn [snd]. rewrite count_calls_app.
  destruct (source_deps_changed prev s), (params_deps_changed prev s);
    rewrite ?source_effect_no_graph_call, ?(proj1 (params_effect_only_targets s env r));
    reflexivity.
Qed.

(** X6.  On mount the hook takes [window.AudioContext] when the browser has
    it and [window.webkitAudioContext] otherwise.  With either, the trace of
    the mount starts with the seven calls that build
    filter -> gain -> analyser -> destination, makes no other such call, and
    leaves a lowpass filter and an analyser with [fftSize] 2048 in the refs. *)
Theorem mount_builds_graph (w : Window) (g : Rng) (s : AudioState) (env : Env) :
  let r := fst (fst (mount w g s env)) in
  let t := snd (fst (mount w g s env)) in
  audioCtxRef r
  = match window_AudioContext w with
    | Some c => Some c
    | None => window_webkitAudioContext w
    end
  /\ (is_Some (audioCtxRef r) ->
      take 7 t = [new_AudioContext; createGain; createBiquadFilter; createAnalyser;
                  filter_connect_gain; gain_connect_analyser; analyser_connect_destination]
      /\ count_calls is_graph_call t = 7%nat
      /\ filterNodeRef r = Some (mkFilter lowpass)
      /\ analyserNodeRef r = Some (mkAnalyser 2048)).
Proof.
  intros r t. subst r t. fold (AudioContextClass w).
  destruct (AudioContextClass w) as [ctx|] eqn:Hw.
  - destruct (mount_engine w g s env ctx Hw) as [(Hc & _ & Hf & Ha & _) _].
    split; [exact Hc |]. intros _.
    split; [| split; [| by split]].
    + unfold mount. destruct (init_effect_full w g ctx Hw) as (bufs & -> & _).
      by destruct (source_effect s env _) as [r1 t1].
    + unfold mount. destruct (init_effect_full w g ctx Hw) as (bufs & -> & _).
      pose proof (source_effect_no_graph_call s env
                    (mkRefs (Some ctx) None (Some mkGainNode) (Some (mkFilter lowpass))
                            (Some (mkAnalyser 2048)) bufs)) as H1.
      destruct (source_effect s env _) as [r1 t1]. cbn [fst snd] in *.
      rewrite !count_calls_app, H1, (proj1 (params_effect_only_targets s env r1)).
      reflexivity.
  - unfold mount. rewrite (init_effect_unsupported w g Hw).
    rewrite source_effect_unsupported by done. cbn [fst snd].
    split; [reflexivity |]. intros H. by destruct H.
Qed.

Lemma mount_builds_graph_witness :
  is_Some (audioCtxRef (fst (fst (mount (mkWindow None (Some (mkAudioContext 1)))
                                        (rng_const 0.5) pink_playing (mkEnv 0 true 0)))))
  /\ count_calls is_graph_call
       (snd (fst (mount (mkWindow None (Some (mkAudioContext 1))) (rng_const 0.5)
                        pink_playing (mkEnv 0 true 0)))) = 7%nat.
Proof.
  assert (H : is_Some (audioCtxRef
                         (fst (fst (mount (mkWindow None (Some (mkAudioContext 1)))
                                          (rng_const 0.5) pink_playing (mkEnv 0 true 0))))))
    by (vm_compute; eauto).
  split; [exact H |].
  exact (proj1 (proj2 (proj2 (mount_builds_graph (mkWindow None (Some (mkAudioContext 1)))
                                 (rng_const 0.5) pink_playing (mkEnv 0 true 0)) H))).
Defined.

Lemma update_keeps_graph (prev s : AudioState) (env : Env) (r : Refs) :
  let r' := fst (update prev s env r) in
  audioCtxRef r' = audioCtxRef r /\ gainNodeRef r' = gainNodeRef r
  /\ filterNodeRef r' = filterNodeRef r /\ analyserNodeRef r' = analyserNodeRef r
  /\ buffersRef r' = buffersRef r.
Proof.
  cbn zeta. rewrite update_unfold. cbn [fst].
  destruct (source_deps_changed prev s); [| done].
  destruct (source_effect_frame s env r) as [src ->]. done.
Qed.

(** X7.  No render after the mount rebuilds the graph or touches the
    buffers: over any sequence of renders the context, the gain, the filter,
    the analyser and the three buffers stay the ones the refs held, and no
    graph-building call is made.  Only the source ref changes. *)
Theorem renders_keep_graph (inputs : list (AudioState * Env)) (prev : AudioState) (r : Refs) :
  let r' := snd (fst (updates prev r inputs)) in
  audioCtxRef r' = audioCtxRef r /\ gainNodeRef r' = gainNodeRef r
  /\ filterNodeRef r' = filterNodeRef r /\ analyserNodeRef r' = analyserNodeRef r
  /\ buffersRef r' = buffersRef r
  /\ count_calls is_graph_call (snd (updates prev r inputs)) = 0%nat.
Proof.
  revert prev r. induction inputs as [|[s env] rest IH]; intros prev r; cbn [updates].
  - done.
  - pose proof (update_keeps_graph prev s env r) as (H1 & H2 & H3 & H4 & H5).
    pose proof (update_no_graph_call prev s env r) as H6.
    destruct (update prev s env r) as [r1 t1]. cbn [fst snd] in *.
    specialize (IH s r1). cbn zeta in IH.
    destruct (updates s r1 rest) as [[last r2] t2]. cbn [fst snd] in *.
    destruct IH as (I1 & I2 & I3 & I4 & I5 & I6).
    rewrite count_calls_app, H6, I6. repeat split; congruence.
Qed.

(** ** The buffers and the source *)

(** X8.  With a context, the init effect generates the three buffers once,
    WHITE then PINK then BROWN, each from the draws the one before it left,
    15 * sampleRate draws in all; every later render finds them in the refs
    as they were made. *)
Theorem buffers_generated_once (w : Window) (g : Rng) (s0 : AudioState) (env0 : Env)
  (inputs : list (AudioState * Env)) (ctx : AudioContext) :
  AudioContextClass w = Some ctx ->
  let len := N.to_nat (sampleRate ctx * 5) in
  let r := snd (fst (run w g s0 env0 inputs)) in
  snd (mount w g s0 env0) = advance g (3 * len)
  /\ buffersRef r WHITE = Some (fst (createNoiseBuffer ctx WHITE g))
  /\ buffersRef r PINK = Some (fst (createNoiseBuffer ctx PINK (advance g len)))
  /\ buffersRef r BROWN = Some (fst (createNoiseBuffer ctx BROWN (advance g (2 * len))))
  /\ forall c b, buffersRef r c = Some b -> bufLength b = (sampleRate ctx * 5)%N.
Proof.
  intros Hw len r. subst r.
  destruct (mount_engine w g s0 env0 ctx Hw) as [_ Hg].
  pose proof (run_engine w g s0 env0 inputs ctx Hw) as (_ & _ & _ & _ & Hb & _).
  split; [exact Hg |].
  rewrite !Hb. unfold buffer_of. cbn [color_index]. fold len.
  replace (0 * len)%nat with 0%nat by lia. replace (1 * len)%nat with len by lia.
  rewrite advance_0. repeat split.
  intros c b Hcb. rewrite Hb in Hcb. injection Hcb as <-.
  apply createNoiseBuffer_spec.
Qed.

Lemma buffers_generated_once_witness :
  AudioContextClass (mkWindow (Some (mkAudioContext 1)) None) = Some (mkAudioContext 1)
  /\ snd (mount (mkWindow (Some (mkAudioContext 1)) None) (rng_const 0.5) pink_playing
               (mkEnv 0 true 0))
     = advance (rng_const 0.5) (3 * N.to_nat (sampleRate (mkAudioContext 1) * 5)).
Proof.
  split; [reflexivity |].
  exact (proj1 (buffers_generated_once (mkWindow (Some (mkAudioContext 1)) None)
                  (rng_const 0.5) pink_playing (mkEnv 0 true 0) []
                  (mkAudioContext 1) eq_refl)).
Defined.

(** X9.  After the mount and any sequence of renders, with a context, a
    source is attached exactly when the last state plays, and it is a
    looping source over the buffer of the last state's color. *)
Theorem source_plays_current_color (w : Window) (g : Rng) (s0 : AudioState) (env0 : Env)
  (inputs : list (AudioState * Env)) (ctx : AudioContext) :
  AudioContextClass w = Some ctx ->
  let last := fst (fst (run w g s0 env0 inputs)) in
  let r := snd (fst (run w g s0 env0 inputs)) in
  sourceNodeRef r
  = (if isPlaying last then Some (mkSource (buffer_of ctx g (noiseColor last)) true) else None)
  /\ buffersRef r (noiseColor last) = Some (buffer_of ctx g (noiseColor last)).
Proof.
  intros Hw last r. subst last r.
  pose proof (run_engine w g s0 env0 inputs ctx Hw) as (_ & _ & _ & _ & Hb & Hs).
  split; [exact Hs | apply Hb].
Qed.

Lemma source_plays_current_color_witness :
  AudioContextClass (mkWindow (Some (mkAudioContext 1)) None) = Some (mkAudioContext 1)
  /\ buffersRef
       (snd (fst (run (mkWindow (Some (mkAudioContext 1)) None) (rng_const 0.5) pink_stopped
                      (mkEnv 0 true 0) [(brown_playing, mkEnv 1 false 0)])))
       (noiseColor (fst (fst (run (mkWindow (Some (mkAudioContext 1)) None) (rng_const 0.5)
                                  pink_stopped (mkEnv 0 true 0)
                                  [(brown_playing, mkEnv 1 false 0)]))))
     = Some (buffer_of (mkAudioContext 1) (rng_const 0.5)
               (noiseColor (fst (fst (run (mkWindow (Some (mkAudioContext 1)) None)
                                          (rng_const 0.5) pink_stopped (mkEnv 0 true 0)
                                          [(brown_playing, mkEnv 1 false 0)]))))).
Proof.
  split; [reflexivity |].
  exact (proj2 (source_plays_current_color (mkWindow (Some (mkAudioContext 1)) None)
                  (rng_const 0.5) pink_stopped (mkEnv 0 true 0)
                  [(brown_playing, mkEnv 1 false 0)] (mkAudioContext 1) eq_refl)).
Defined.

Lemma draws_in_range_advance (g : Rng) (n : nat) :
  draws_in_range g -> draws_in_range (advance g n).
Proof. intros Hg m. apply Hg. Qed.

(** X10.  For draws in range, whatever source is attached after the mount
    and any sequence of renders loops over [5 * sampleRate] samples, all
    within the amplitude of the color the last state asks for. *)
Theorem attached_source_within_amplitude (w : Window) (g : Rng) (s0 : AudioState)
  (env0 : Env) (inputs : list (AudioState * Env)) (ctx : AudioContext)
  (src : AudioBufferSourceNode) :
  AudioContextClass w = Some ctx ->
  draws_in_range g ->
  let last := fst (fst (run w g s0 env0 inputs)) in
  sourceNodeRef (snd (fst (run w g s0 env0 inputs))) = Some src ->
  loop src = true
  /\ length (channelData (buffer src)) = N.to_nat (5 * sampleRate ctx)
  /\ Forall (fun v => - amplitude (noiseColor last) <= v <= amplitude (noiseColor last))
            (channelData (buffer src)).
Proof.
  intros Hw Hg last Hsrc. subst last.
  pose proof (run_engine w g s0 env0 inputs ctx Hw) as (_ & _ & _ & _ & _ & Hs).
  rewrite Hs in Hsrc. destruct (isPlaying _); [| done].
  injection Hsrc as <-. cbn [loop buffer]. unfold buffer_of.
  split; [reflexivity |]. split.
  - rewrite (N.mul_comm 5). apply createNoiseBuffer_spec.
  - apply buffer_within_amplitude. by apply draws_in_range_advance.
Qed.

Lemma attached_source_within_amplitude_witness :
  AudioContextClass (mkWindow (Some (mkAudioContext 1)) None) = Some (mkAudioContext 1)
  /\ draws_in_range (rng_const 0.5)
  /\ loop (mkSource (buffer_of (mkAudioContext 1) (rng_const 0.5) PINK) true) = true.
Proof.
  assert (Hg : draws_in_range (rng_const 0.5)).
  { intros n. vm_compute. split; discriminate. }
  assert (Hs : sourceNodeRef
                 (snd (fst (run (mkWindow (Some (mkAudioContext 1)) None) (rng_const 0.5)
                                pink_playing (mkEnv 0 true 0) [])))
               = Some (mkSource (buffer_of (mkAudioContext 1) (rng_const 0.5) PINK) true))
    by (vm_compute; reflexivity).
  split; [reflexivity | split; [exact Hg |]].
  exact (proj1 (attached_source_within_amplitude
                  (mkWindow (Some (mkAudioContext 1)) None) (rng_const 0.5) pink_playing
                  (mkEnv 0 true 0) [] (mkAudioContext 1) _ eq_refl Hg Hs)).
Defined.

(** ** One source at a time *)

Lemma attached_supported (prev : AudioState) (r : Refs) :
  supported prev r -> attached r = (if isPlaying prev then 1 else 0)%nat.
Proof.
  intros (_ & _ & _ & _ & _ & Hs). unfold attached.
  destruct (sourceNodeRef r), (isPlaying prev); try done.
  - destruct Hs as [Hs _]. by specialize (Hs ltac:(eauto)).
  - destruct Hs as [_ Hs]. by destruct (Hs eq_refl).
Qed.

Lemma update_balance (prev s : AudioState) (env : Env) (r : Refs) :
  unsupported r \/ supported prev r ->
  let t := snd (update prev s env r) in
  (count_calls is_source_start t + attached r
   = count_calls is_source_stop t + attached (fst (update prev s env r)))%nat
  /\ count_calls is_source_disconnect t = count_calls is_source_stop t
  /\ count_calls is_createBufferSource t = count_calls is_source_start t.
Proof.
  intros [Hun | Hsup]; cbn zeta.
  - by rewrite (update_unsupported prev s env r Hun).
  - rewrite update_unfold. cbn [fst snd].
    rewrite (params_effect_supported prev s env r Hsup).
    destruct (source_deps_changed prev s) eqn:Hd.
    + pose proof (source_effect_keeps_support prev s env r Hsup) as Hsup'.
      rewrite (attached_supported _ _ Hsup), (attached_supported _ _ Hsup').
      destruct (source_effect_supported prev s env r Hsup) as (buf & _ & ->).
      cbn [snd].
      destruct (isPlaying prev), (isPlaying s), (ctx_suspended env),
        (params_deps_changed prev s); done.
    + destruct (isPlaying s), (params_deps_changed prev s); done.
Qed.

Lemma updates_balance (inputs : list (AudioState * Env)) :
  forall prev r,
    unsupported r \/ supported prev r ->
    let t := snd (updates prev r inputs) in
    (count_calls is_source_start t + attached r
     = count_calls is_source_stop t + attached (snd (fst (updates prev r inputs))))%nat
    /\ count_calls is_source_disconnect t = count_calls is_source_stop t
    /\ count_calls is_createBufferSource t = count_calls is_source_start t.
Proof.
  induction inputs as [|[s env] rest IH]; intros prev r Hr; cbn [updates]; cbn zeta.
  - done.
  - pose proof (update_balance prev s env r Hr) as (H1 & H2 & H3).
    assert (Hr1 : unsupported (fst (update prev s env r))
                  \/ supported s (fst (update prev s env r))).
    { destruct Hr as [Hun | Hsup].
      - left. by rewrite (update_unsupported prev s env r Hun).
      - right. rewrite update_unfold. cbn [fst].
        destruct (source_deps_changed prev s) eqn:Hd;
          [by eapply source_effect_keeps_support |].
        destruct (source_deps_unchanged prev s Hd) as [Hp _].
        unfold supported in *. by rewrite <- Hp. }
    destruct (update prev s env r) as [r1 t1]. cbn [fst snd] in *.
    specialize (IH s r1 Hr1). cbn zeta in IH.
    destruct (updates s r1 rest) as [[last r2] t2]. cbn [fst snd] in *.
    destruct IH as (I1 & I2 & I3). rewrite !count_calls_app. lia.
Qed.

(** X11.  Sources are attached one at a time.  Over the mount and any
    sequence of renders, every [stop] comes with a [disconnect] and every
    [start] with a [createBufferSource], and the starts outnumber the stops
    by one when a source is attached at the end and by none otherwise. *)
Theorem one_source_at_a_time (w : Window) (g : Rng) (s0 : AudioState) (env0 : Env)
  (inputs : list (AudioState * Env)) :
  let r := snd (fst (run w g s0 env0 inputs)) in
  let t := snd (run w g s0 env0 inputs) in
  count_calls is_source_start t = (count_calls is_source_stop t + attached r)%nat
  /\ (attached r <= 1)%nat
  /\ count_calls is_source_disconnect t = count_calls is_source_stop t
  /\ count_calls is_createBufferSource t = count_calls is_source_start t.
Proof.
  cbn zeta. unfold run.
  assert (Hm : (unsupported (fst (fst (mount w g s0 env0)))
                \/ supported s0 (fst (fst (mount w g s0 env0))))
               /\ count_calls is_source_stop (snd (fst (mount w g s0 env0))) = 0%nat
               /\ count_calls is_source_disconnect (snd (fst (mount w g s0 env0))) = 0%nat
               /\ count_calls is_source_start (snd (fst (mount w g s0 env0)))
                  = attached (fst (fst (mount w g s0 env0)))
               /\ count_calls is_createBufferSource (snd (fst (mount w g s0 env0)))
                  = attached (fst (fst (mount w g s0 env0)))).
  { split; [apply reachable_invariant, reachable_mount |].
    unfold mount. destruct (AudioContextClass w) as [ctx|] eqn:Hw.
    - destruct (init_effect_full w g ctx Hw) as (bufs & -> & Hb).
      set (r0 := mkRefs _ _ _ _ _ bufs).
      assert (Hsup : supported (mkAudioState false 0 WHITE 0 0) r0).
      { apply (engine_of_supported ctx g). unfold engine_of, r0. cbn. done. }
      pose proof (source_effect_keeps_support _ s0 env0 r0 Hsup) as Hsup'.
      pose proof (attached_supported _ _ Hsup') as Ha.
      pose proof (params_effect_supported _ s0 env0 _ Hsup') as Hp.
      destruct (source_effect_supported _ s0 env0 r0 Hsup) as (buf & _ & E).
      rewrite E in *. cbn [fst snd] in *. rewrite Ha, Hp.
      destruct (isPlaying s0), (ctx_suspended env0); done.
    - rewrite (init_effect_unsupported w g Hw).
      rewrite source_effect_unsupported, params_effect_unsupported by done. done. }
  destruct (mount w g s0 env0) as [[r0 t0] g0]. cbn [fst snd] in Hm.
  destruct Hm as (Hr0 & M1 & M2 & M3 & M4).
  pose proof (updates_balance inputs s0 r0 Hr0) as HU. cbn zeta in HU.
  destruct (updates s0 r0 inputs) as [[last r] t]. cbn [fst snd] in *.
  destruct HU as (U1 & U2 & U3). rewrite !count_calls_app.
  repeat split; try lia.
  unfold attached. destruct (sourceNodeRef r); lia.
Qed.

(** ** Starting, and changes while stopped *)

(** X12.  On an engine with audio, a render that starts playing makes no
    detach and one attach, resumes the context first when it is suspended,
    fades the gain in from 0 to the state's volume over 0.1 s, and then sets
    the three targets.  The source gets the buffer of the new state's color,
    also when the color changes in the same render. *)
Theorem start_render (prev s : AudioState) (env : Env) (r : Refs) :
  reachable prev r ->
  is_Some (audioCtxRef r) ->
  isPlaying prev = false ->
  isPlaying s = true ->
  snd (update prev s env r)
  = (if ctx_suspended env then [ctx_resume] else [])
    ++ [createBufferSource; source_connect_filter; source_start;
        cancelScheduledValues gain_gain (currentTime env);
        setValueAtTime gain_gain 0 (currentTime env);
        linearRampToValueAtTime gain_gain (volume s) (currentTime env + 0.1);
        setTargetAtTime gain_gain (volume s) (currentTime env) 0.1;
        setTargetAtTime filter_frequency (filterFrequency s) (currentTime env) 0.1;
        setTargetAtTime filter_Q (filterQ s) (currentTime env) 0.1]
  /\ exists buf,
       buffersRef r (noiseColor s) = Some buf
       /\ sourceNodeRef (fst (update prev s env r)) = Some (mkSource buf true).
Proof.
  intros Hr Hctx Hp Hs.
  pose proof (reachable_supported prev r Hr Hctx) as Hsup.
  destruct (play_change_deps prev s) as [Hd1 Hd2]; [congruence |].
  split.
  - rewrite (update_source_trace prev s env r Hsup Hd1), Hp, Hs, Hd2.
    cbn [app]. by rewrite <- app_assoc.
  - rewrite update_unfold, Hd1. cbn [fst].
    destruct (source_effect_supported prev s env r Hsup) as (buf & Hbuf & ->).
    exists buf. rewrite Hs. done.
Qed.

Lemma start_render_witness :
  reachable pink_stopped
    (fst (fst (mount window_44100 (rng_const 0.5) pink_stopped (mkEnv 0 true 0))))
  /\ snd (update pink_stopped brown_playing (mkEnv 10 true 0)
            (fst (fst (mount window_44100 (rng_const 0.5) pink_stopped (mkEnv 0 true 0)))))
     = [ctx_resume; createBufferSource; source_connect_filter; source_start;
        cancelScheduledValues gain_gain 10;
        setValueAtTime gain_gain 0 10;
        linearRampToValueAtTime gain_gain 0.5 (10 + 0.1);
        setTargetAtTime gain_gain 0.5 10 0.1;
        setTargetAtTime filter_frequency 5000 10 0.1;
        setTargetAtTime filter_Q 1 10 0.1].
Proof.
  assert (Hr : reachable pink_stopped
                 (fst (fst (mount window_44100 (rng_const 0.5) pink_stopped
                                  (mkEnv 0 true 0)))))
    by apply reachable_mount.
  assert (Hc : is_Some (audioCtxRef
                          (fst (fst (mount window_44100 (rng_const 0.5) pink_stopped
                                           (mkEnv 0 true 0)))))).
  { rewrite (proj1 (proj1 (mount_engine window_44100 (rng_const 0.5) pink_stopped
                             (mkEnv 0 true 0) (mkAudioContext 44100) eq_refl))).
    eauto. }
  split; [exact Hr |].
  exact (proj1 (start_render pink_stopped brown_playing (mkEnv 10 true 0) _ Hr Hc
                  eq_refl eq_refl)).
Defined.

(** X13.  While the state stays stopped and keeps its color, a render makes
    no call on the gain and none on a source, whatever the refs hold: a
    change of volume is not sent to the graph, the filter targets are. *)
Theorem stopped_render_leaves_gain (prev s : AudioState) (env : Env) (r : Refs) :
  isPlaying prev = false ->
  isPlaying s = false ->
  noiseColor s = noiseColor prev ->
  let t := snd (update prev s env r) in
  count_calls is_gain_call t = 0%nat
  /\ count_calls is_source_call t = 0%nat
  /\ fst (update prev s env r) = r
  /\ (is_Some (audioCtxRef r) -> is_Some (gainNodeRef r) -> is_Some (filterNodeRef r) ->
      params_deps_changed prev s = true ->
      t = [setTargetAtTime filter_frequency (filterFrequency s) (currentTime env) 0.1;
           setTargetAtTime filter_Q (filterQ s) (currentTime env) 0.1]).
Proof.
  intros Hp Hs Hc. cbn zeta. rewrite update_unfold.
  assert (Hd : source_deps_changed prev s = false).
  { unfold source_deps_changed. rewrite Hp, Hs, Hc. by destruct (noiseColor prev). }
  rewrite Hd. cbn [fst snd app].
  destruct (params_effect_only_targets s env r) as (_ & H2 & H3).
  repeat split.
  - destruct (params_deps_changed prev s); [by apply H3 | done].
  - destruct (params_deps_changed prev s); [exact H2 | done].
  - intros [c Hc1] [gn Hg1] [f Hf1] ->. unfold params_effect.
    by rewrite Hc1, Hg1, Hf1, Hs.
Qed.

Lemma stopped_render_leaves_gain_witness :
  count_calls is_gain_call
    (snd (update pink_stopped (handleVolumeChange 0.9 pink_stopped) (mkEnv 10 false 0)
            (fst (fst (mount window_44100 (rng_const 0.5) pink_stopped (mkEnv 0 true 0))))))
  = 0%nat.
Proof.
  exact (proj1 (stopped_render_leaves_gain pink_stopped (handleVolumeChange 0.9 pink_stopped)
                  (mkEnv 10 false 0)
                  (fst (fst (mount window_44100 (rng_const 0.5) pink_stopped
                                   (mkEnv 0 true 0))))
                  eq_refl eq_refl eq_refl)).
Defined.

(** X14.  On an engine with audio, a change of color while the state stays
    stopped attaches nothing: no call on a source is made and the source ref
    stays empty; the gain is sent from its current value to 0 over 0.1 s. *)
Theorem color_change_while_stopped (prev s : AudioState) (env : Env) (r : Refs) :
  reachable prev r ->
  is_Some (audioCtxRef r) ->
  isPlaying prev = false ->
  isPlaying s = false ->
  noiseColor s <> noiseColor prev ->
  let t := snd (update prev s env r) in
  count_calls is_source_call t = 0%nat
  /\ sourceNodeRef (fst (update prev s env r)) = None
  /\ take 3 t = [cancelScheduledValues gain_gain (currentTime env);
                 setValueAtTime gain_gain (gain_value env) (currentTime env);
                 linearRampToValueAtTime gain_gain 0 (currentTime env + 0.1)].
Proof.
  intros Hr Hctx Hp Hs Hne. cbn zeta.
  pose proof (reachable_supported prev r Hr Hctx) as Hsup.
  pose proof (color_change_deps prev s Hne) as Hd.
  rewrite (update_source_trace prev s env r Hsup Hd), Hp, Hs.
  split; [by destruct (params_deps_changed prev s) |].
  split; [| reflexivity].
  rewrite update_unfold, Hd. cbn [fst].
  destruct (source_effect_supported prev s env r Hsup) as (buf & _ & ->).
  by rewrite Hs.
Qed.

Lemma color_change_while_stopped_witness :
  reachable pink_stopped
    (fst (fst (mount window_44100 (rng_const 0.5) pink_stopped (mkEnv 0 true 0))))
  /\ count_calls is_source_call
       (snd (update pink_stopped (handleColorChange BROWN pink_stopped) (mkEnv 10 true 0)
               (fst (fst (mount window_44100 (rng_const 0.5) pink_stopped
                                (mkEnv 0 true 0)))))) = 0%nat.
Proof.
  assert (Hr : reachable pink_stopped
                 (fst (fst (mount window_44100 (rng_const 0.5) pink_stopped
                                  (mkEnv 0 true 0)))))
    by apply reachable_mount.
  assert (Hc : is_Some (audioCtxRef
                          (fst (fst (mount window_44100 (rng_const 0.5) pink_stopped
                                           (mkEnv 0 true 0)))))).
  { rewrite (proj1 (proj1 (mount_engine window_44100 (rng_const 0.5) pink_stopped
                             (mkEnv 0 true 0) (mkAudioContext 44100) eq_refl))).
    eauto. }
  assert (Hne : noiseColor (handleColorChange BROWN pink_stopped) <> noiseColor pink_stopped)
    by (vm_compute; discriminate).
  split; [exact Hr |].
  exact (proj1 (color_change_while_stopped pink_stopped (handleColorChange BROWN pink_stopped)
                  (mkEnv 10 true 0) _ Hr Hc eq_refl eq_refl Hne)).
Defined.

(** ** What the hook returns *)

(** X15.  The hook reads the analyser ref while rendering, before its
    effects run: the first render returns no analyser even when the browser
    has audio, and every later render returns the analyser the mount made,
    with [fftSize] 2048 and so 1024 bins. *)
Theorem hook_returns_analyser_after_first_render (w : Window) (g g' : Rng)
  (s0 s : AudioState) (env0 env : Env) (inputs : list (AudioState * Env))
  (ctx : AudioContext) :
  AudioContextClass w = Some ctx ->
  let last := fst (fst (run w g s0 env0 inputs)) in
  let r := snd (fst (run w g s0 env0 inputs)) in
  fst (useNoiseAudio w None s0 env0 g refs_initial) = None
  /\ fst (useNoiseAudio w (Some last) s env g' r) = Some (mkAnalyser 2048)
  /\ frequencyBinCount (mkAnalyser 2048) = 1024%nat.
Proof.
  intros Hw last r. subst last r.
  pose proof (run_engine w g s0 env0 inputs ctx Hw) as (_ & _ & _ & Ha & _).
  unfold useNoiseAudio, useNoiseAudio_result. cbn [fst].
  rewrite Ha. done.
Qed.

Lemma hook_returns_analyser_after_first_render_witness :
  AudioContextClass window_44100 = Some (mkAudioContext 44100)
  /\ fst (useNoiseAudio window_44100 None pink_stopped (mkEnv 0 true 0) (rng_const 0.5)
            refs_initial) = None.
Proof.
  split; [reflexivity |].
  exact (proj1 (hook_returns_analyser_after_first_render window_44100 (rng_const 0.5)
                  (rng_const 0.5) pink_stopped pink_playing (mkEnv 0 true 0)
                  (mkEnv 1 true 0) [] (mkAudioContext 44100) eq_refl)).
Defined.

(** * The handlers of App *)

Lemma Math_max_spec (a b : Q) : a <= Math_max a b /\ b <= Math_max a b
                                /\ (Math_max a b = a \/ Math_max a b = b).
Proof.
  unfold Math_max. destruct (Qle_bool a b) eqn:E.
  - apply Qle_bool_iff in E. repeat split; [done | lra | by right].
  - assert (~ a <= b) by (rewrite <- Qle_bool_iff; congruence).
    repeat split; [lra | lra | by left].
Qed.

Lemma Math_min_spec (a b : Q) : Math_min a b <= a /\ Math_min a b <= b
                                /\ (Math_min a b = a \/ Math_min a b = b).
Proof.
  unfold Math_min. destruct (Qle_bool a b) eqn:E.
  - apply Qle_bool_iff in E. repeat split; [lra | done | by left].
  - assert (~ a <= b) by (rewrite <- Qle_bool_iff; congruence).
    repeat split; [lra | lra | by right].
Qed.

Lemma Math_max_mono (a b c : Q) : b <= c -> Math_max a b <= Math_max a c.
Proof.
  intros H. destruct (Math_max_spec a b) as (_ & _ & [-> | ->]);
    destruct (Math_max_spec a c) as (? & ? & _); lra.
Qed.

Lemma Math_min_mono (a b c : Q) : b <= c -> Math_min a b <= Math_min a c.
Proof.
  intros H. destruct (Math_min_spec a c) as (_ & _ & [-> | ->]);
    destruct (Math_min_spec a b) as (? & ? & _); lra.
Qed.

Lemma square_nonneg (x : Q) : 0 <= x * x.
Proof. nra. Qed.

Lemma cube_mono (a b : Q) : a <= b -> a ^ 3 <= b ^ 3.
Proof.
  intros H.
  assert (H1 : 0 <= (b - a) * ((a + (1 # 2) * b) * (a + (1 # 2) * b) + (3 # 4) * (b * b))).
  { apply Qmult_le_0_compat; [lra |].
    pose proof (square_nonneg (a + (1 # 2) * b)). pose proof (square_nonneg b). lra. }
  assert (E : (b - a) * ((a + (1 # 2) * b) * (a + (1 # 2) * b) + (3 # 4) * (b * b))
              == b ^ 3 - a ^ 3) by (simpl; ring).
  rewrite E in H1. lra.
Qed.

(** The cutoff before the clamp is monotone in the slider value. *)
Lemma freq_mono (a b : Q) :
  a <= b ->
  Math_floor (a ^ 3 / 10000 * 19900 + 100) <= Math_floor (b ^ 3 / 10000 * 19900 + 100).
Proof.
  intros H. unfold Math_floor. rewrite <- Zle_Qle. apply Qfloor_resp_le.
  pose proof (cube_mono a b H) as Hc.
  assert (Ea : a ^ 3 == (a ^ 3 / 10000) * 10000) by field.
  assert (Eb : b ^ 3 == (b ^ 3 / 10000) * 10000) by field.
  lra.
Qed.

(** X16.  Whatever number the slider sends, [handleFilterChange] stores a
    whole number of Hz between 50 and 20000, inside the documented domain of
    the cutoff, and changes no other field of the state. *)
Theorem handleFilterChange_in_domain (value : Q) (prev : AudioState) :
  let s := handleFilterChange value prev in
  50 <= filterFrequency s <= 20000
  /\ in_domain filter_frequency (filterFrequency s)
  /\ (exists z : Z, filterFrequency s = inject_Z z)
  /\ isPlaying s = isPlaying prev /\ volume s = volume prev
  /\ noiseColor s = noiseColor prev /\ filterQ s = filterQ prev.
Proof.
  cbn zeta. unfold handleFilterChange. cbn [filterFrequency isPlaying volume noiseColor filterQ].
  set (freq := Math_floor _).
  destruct (Math_max_spec 50 (Math_min 20000 freq)) as (H1 & H2 & H3).
  destruct (Math_min_spec 20000 freq) as (H4 & H5 & H6).
  assert (Hr : 50 <= Math_max 50 (Math_min 20000 freq) <= 20000).
  { split; [done |]. destruct H3 as [-> | ->]; lra. }
  split; [exact Hr |]. split; [cbn; lra |]. split; [| done].
  destruct H3 as [-> | ->]; [by exists 50%Z |].
  destruct H6 as [-> | ->]; [by exists 20000%Z | by eexists].
Qed.

(** X17.  The stored cutoff never goes down when the slider goes up. *)
Theorem handleFilterChange_monotone (v1 v2 : Q) (prev : AudioState) :
  v1 <= v2 ->
  filterFrequency (handleFilterChange v1 prev) <= filterFrequency (handleFilterChange v2 prev).
Proof.
  intros H. unfold handleFilterChange. cbn [filterFrequency].
  by apply Math_max_mono, Math_min_mono, freq_mono.
Qed.

Lemma handleFilterChange_monotone_witness :
  1 <= 22
  /\ filterFrequency (handleFilterChange 1 App_initialState)
     <= filterFrequency (handleFilterChange 22 App_initialState).
Proof.
  assert (H : 1 <= 22) by (vm_compute; discriminate).
  split; [exact H |].
  apply (handleFilterChange_monotone 1 22 App_initialState H).
Defined.

(** X18.  Over the slider's range, 1 to 22, the stored cutoff runs from
    101 Hz up to the cap of 20000 Hz, which it reaches from 21.6 on; the
    floor of 50 Hz is never what is stored. *)
Theorem handleFilterChange_slider_range (value : Q) (prev : AudioState) :
  1 <= value <= 22 ->
  101 <= filterFrequency (handleFilterChange value prev) <= 20000
  /\ (21.6 <= value -> filterFrequency (handleFilterChange value prev) == 20000).
Proof.
  intros [Hlo Hhi].
  pose proof (handleFilterChange_in_domain value prev) as ([_ Hmax] & _).
  cbn zeta in Hmax.
  pose proof (Math_max_mono 50 _ _ (Math_min_mono 20000 _ _ (freq_mono 1 value Hlo))) as H1.
  assert (E1 : Math_max 50 (Math_min 20000 (Math_floor (1 ^ 3 / 10000 * 19900 + 100))) == 101)
    by (by vm_compute).
  split.
  - split; [| exact Hmax]. unfold handleFilterChange. cbn [filterFrequency]. lra.
  - intros H216.
    pose proof (Math_max_mono 50 _ _ (Math_min_mono 20000 _ _ (freq_mono 21.6 value H216)))
      as H2.
    assert (E2 : Math_max 50 (Math_min 20000 (Math_floor (21.6 ^ 3 / 10000 * 19900 + 100)))
                 == 20000) by (by vm_compute).
    unfold handleFilterChange in *. cbn [filterFrequency] in *. lra.
Qed.

Lemma handleFilterChange_slider_range_witness :
  1 <= 15 <= 22
  /\ 101 <= filterFrequency (handleFilterChange 15 App_initialState) <= 20000.
Proof.
  assert (H : 1 <= 15 <= 22) by (vm_compute; split; discriminate).
  split; [exact H |].
  exact (proj1 (handleFilterChange_slider_range 15 App_initialState H)).
Defined.

(** ** Handlers and the hook *)

Lemma update_without_source_effect (prev s : AudioState) (env : Env) (r : Refs) :
  isPlaying s = isPlaying prev ->
  noiseColor s = noiseColor prev ->
  update prev s env r
  = (r, if params_deps_changed prev s then params_effect s env r else []).
Proof.
  intros Hp Hc. rewrite update_unfold.
  assert (Hd : source_deps_changed prev s = false).
  { unfold source_deps_changed. rewrite Hp, Hc.
    destruct (isPlaying prev), (noiseColor prev); done. }
  by rewrite Hd.
Qed.

(** X19.  Moving the volume slider or the cutoff slider never restarts the
    sound: the render that follows leaves the refs as they are and makes no
    call on a source, whatever the slider sends and whatever the refs hold. *)
Theorem sliders_never_restart (value : Q) (prev : AudioState) (env : Env) (r : Refs) :
  fst (snd (App_event (handleVolumeChange value) prev env r)) = r
  /\ count_calls is_source_call (snd (snd (App_event (handleVolumeChange value) prev env r)))
     = 0%nat
  /\ fst (snd (App_event (handleFilterChange value) prev env r)) = r
  /\ count_calls is_source_call (snd (snd (App_event (handleFilterChange value) prev env r)))
     = 0%nat.
Proof.
  unfold App_event. cbn [fst snd].
  rewrite !update_without_source_effect by reflexivity. cbn [fst snd].
  repeat split.
  - destruct (params_deps_changed _ _); [apply params_effect_only_targets | done].
  - destruct (params_deps_changed _ _); [apply params_effect_only_targets | done].
Qed.

(** X20.  Choosing the color that is already selected makes no call and
    leaves the refs as they are; choosing a color twice stores what choosing
    it once stores. *)
Theorem handleColorChange_same_color (color : NoiseColor) (prev : AudioState) (env : Env)
  (r : Refs) :
  snd (App_event (handleColorChange (noiseColor prev)) prev env r) = (r, [])
  /\ handleColorChange color (handleColorChange color prev) = handleColorChange color prev.
Proof.
  split; [| reflexivity].
  unfold App_event. cbn [snd].
  rewrite update_without_source_effect by reflexivity.
  assert (Hd : params_deps_changed prev (handleColorChange (noiseColor prev) prev) = false).
  { unfold params_deps_changed, handleColorChange.
    cbn [volume filterFrequency filterQ isPlaying].
    rewrite !(proj2 (Qeq_bool_iff _ _) (Qeq_refl _)). by destruct (isPlaying prev). }
  by rewrite Hd.
Qed.

Lemma togglePlay_involutive (prev : AudioState) : togglePlay (togglePlay prev) = prev.
Proof. destruct prev as [[] v c f q]; reflexivity. Qed.

(** X21.  Pressing play and then stop (or stop and then play) on an engine
    with audio brings the state back, makes one attach and one detach in
    all, and leaves a source attached exactly if one was attached before. *)
Theorem togglePlay_twice (prev : AudioState) (env1 env2 : Env) (r : Refs) :
  reachable prev r ->
  is_Some (audioCtxRef r) ->
  let e1 := App_event togglePlay prev env1 r in
  let e2 := App_event togglePlay (fst e1) env2 (fst (snd e1)) in
  fst e2 = prev
  /\ attached (fst (snd e2)) = attached r
  /\ (attached (fst (snd e1)) + attached r = 1)%nat
  /\ count_calls is_source_start (snd (snd e1) ++ snd (snd e2)) = 1%nat
  /\ count_calls is_source_stop (snd (snd e1) ++ snd (snd e2)) = 1%nat.
Proof.
  intros Hr Hctx. cbn zeta. unfold App_event. cbn [fst snd].
  rewrite togglePlay_involutive.
  pose proof (reachable_supported prev r Hr Hctx) as Hsup.
  set (s1 := togglePlay prev).
  assert (Hr1 : reachable s1 (fst (update prev s1 env1 r))) by by apply reachable_update.
  assert (Hctx1 : is_Some (audioCtxRef (fst (update prev s1 env1 r)))).
  { by rewrite (proj1 (update_keeps_graph prev s1 env1 r)). }
  pose proof (reachable_supported _ _ Hr1 Hctx1) as Hsup1.
  assert (Hr2 : reachable prev (fst (update s1 prev env2 (fst (update prev s1 env1 r)))))
    by by apply reachable_update.
  assert (Hctx2 : is_Some (audioCtxRef (fst (update s1 prev env2 (fst (update prev s1 env1 r)))))).
  { by rewrite (proj1 (update_keeps_graph s1 prev env2 _)). }
  pose proof (reachable_supported _ _ Hr2 Hctx2) as Hsup2.
  rewrite (attached_supported _ _ Hsup), (attached_supported _ _ Hsup1),
    (attached_supported _ _ Hsup2).
  assert (Hs1 : isPlaying s1 = negb (isPlaying prev)) by reflexivity.
  destruct (play_change_deps prev s1) as [Hd1 _];
    [rewrite Hs1; by destruct (isPlaying prev) |].
  destruct (play_change_deps s1 prev) as [Hd2 _];
    [rewrite Hs1; by destruct (isPlaying prev) |].
  rewrite (update_source_trace prev s1 env1 r Hsup Hd1).
  rewrite (update_source_trace s1 prev env2 _ Hsup1 Hd2).
  rewrite Hs1. rewrite !count_calls_app.
  destruct (isPlaying prev), (ctx_suspended env1), (ctx_suspended env2),
    (params_deps_changed prev s1), (params_deps_changed s1 prev); done.
Qed.

Lemma togglePlay_twice_witness :
  reachable pink_playing refs_pink_playing
  /\ is_Some (audioCtxRef refs_pink_playing)
  /\ fst (App_event togglePlay
            (fst (App_event togglePlay pink_playing (mkEnv 10 false 0.5) refs_pink_playing))
            (mkEnv 20 false 0)
            (fst (snd (App_event togglePlay pink_playing (mkEnv 10 false 0.5)
                                 refs_pink_playing))))
     = pink_playing.
Proof.
  assert (Hr : reachable pink_playing refs_pink_playing) by apply reachable_mount.
  assert (Hc : is_Some (audioCtxRef refs_pink_playing))
    by exact (proj1 refs_pink_playing_supported).
  split; [exact Hr | split; [exact Hc |]].
  exact (proj1 (togglePlay_twice pink_playing (mkEnv 10 false 0.5) (mkEnv 20 false 0)
                  refs_pink_playing Hr Hc)).
Defined.

Lemma NoiseColor_eqb_eq (a b : NoiseColor) : NoiseColor_eqb a b = true <-> a = b.
Proof. destruct a, b; cbn; split; congruence. Qed.

(** X22.  Applying a mood configuration to a mounted engine leaves it
    playing a looping source over the buffer of the configured color and
    keeps the resonance of the state.  A source is started unless that color
    was already playing, and one is stopped only when another color was
    playing. *)
Theorem handleGeminiConfig_plays_config (ctx : AudioContext) (g : Rng)
  (config : GeminiMoodConfig) (prev : AudioState) (env : Env) (r : Refs) :
  engine_of ctx g prev r ->
  let e := App_event (handleGeminiConfig config) prev env r in
  let same := isPlaying prev && NoiseColor_eqb (noiseColor prev) (config_noiseColor config) in
  isPlaying (fst e) = true
  /\ filterQ (fst e) = filterQ prev
  /\ sourceNodeRef (fst (snd e))
     = Some (mkSource (buffer_of ctx g (config_noiseColor config)) true)
  /\ count_calls is_source_start (snd (snd e)) = (if same then 0 else 1)%nat
  /\ count_calls is_source_stop (snd (snd e))
     = (if isPlaying prev && negb same then 1 else 0)%nat.
Proof.
  intros He. cbn zeta. unfold App_event. cbn [fst snd].
  set (s := handleGeminiConfig config prev).
  pose proof (update_engine ctx g prev s env r He) as (_ & _ & _ & _ & _ & Hs).
  pose proof (engine_of_supported ctx g prev r He) as Hsup.
  split; [reflexivity |]. split; [reflexivity |]. split; [exact Hs |].
  destruct (source_deps_changed prev s) eqn:Hd.
  - rewrite (update_source_trace prev s env r Hsup Hd). rewrite !count_calls_app.
    assert (Hsame : isPlaying prev
                    && NoiseColor_eqb (noiseColor prev) (config_noiseColor config) = false).
    { unfold source_deps_changed in Hd. cbn [isPlaying noiseColor s handleGeminiConfig] in Hd.
      destruct (isPlaying prev); [| done]. cbn in Hd |- *.
      by destruct (NoiseColor_eqb _ _). }
    rewrite Hsame. cbn [isPlaying s handleGeminiConfig negb].
    rewrite andb_true_r.
    destruct (isPlaying prev), (ctx_suspended env), (params_deps_changed prev s); done.
  - destruct (source_deps_unchanged prev s Hd) as [Hp Hc].
    cbn [isPlaying noiseColor s handleGeminiConfig] in Hp, Hc.
    rewrite update_without_source_effect by done. cbn [snd].
    rewrite Hp, Hc, (proj2 (NoiseColor_eqb_eq _ _) eq_refl). cbn [andb negb].
    destruct (params_effect_only_targets s env r) as (_ & H2 & _).
    destruct (params_deps_changed prev s); [| done].
    unfold params_effect in *.
    destruct (audioCtxRef r), (gainNodeRef r), (filterNodeRef r); try done.
Qed.

Lemma handleGeminiConfig_plays_config_witness :
  engine_of (mkAudioContext 44100) (rng_const 0.5) pink_stopped
    (fst (fst (mount window_44100 (rng_const 0.5) pink_stopped (mkEnv 0 true 0))))
  /\ isPlaying (fst (App_event (handleGeminiConfig (mkMood BROWN 0.3 800 "deep"))
                       pink_stopped (mkEnv 10 true 0)
                       (fst (fst (mount window_44100 (rng_const 0.5) pink_stopped
                                        (mkEnv 0 true 0)))))) = true.
Proof.
  assert (He : engine_of (mkAudioContext 44100) (rng_const 0.5) pink_stopped
                 (fst (fst (mount window_44100 (rng_const 0.5) pink_stopped
                                  (mkEnv 0 true 0)))))
    by exact (proj1 (mount_engine window_44100 (rng_const 0.5) pink_stopped
                       (mkEnv 0 true 0) (mkAudioContext 44100) eq_refl)).
  split; [exact He |].
  exact (proj1 (handleGeminiConfig_plays_config (mkAudioContext 44100) (rng_const 0.5)
                  (mkMood BROWN 0.3 800 "deep") pink_stopped (mkEnv 10 true 0) _ He)).
Defined.

(** * The visualizer *)

Lemma bar_loop_spec (canvas_height barWidth : Q) (dataArray : list N) (primaryColor : string)
  (n : nat) :
  for_loop n 0 (bar_body canvas_height barWidth dataArray primaryColor) (0, [])
  = (bar_x barWidth n,
     bar_call canvas_height barWidth dataArray primaryColor <$> seq 0 n).
Proof.
  replace n with (0 + n)%nat at 2 3 by lia.
  apply (for_loop_inv (bar_body canvas_height barWidth dataArray primaryColor)
           (fun j s => s = (bar_x barWidth j,
                            bar_call canvas_height barWidth dataArray primaryColor
                              <$> seq 0 j)) n 0).
  - reflexivity.
  - intros j t _ ->. unfold bar_body. rewrite seq_S, fmap_app. reflexivity.
Qed.

Lemma bar_x_closed (barWidth : Q) (i : nat) :
  bar_x barWidth i == inject_Z (Z.of_nat i) * (barWidth + 1).
Proof.
  induction i as [|i IH]; cbn [bar_x].
  - cbn. ring.
  - rewrite IH, Nat2Z.inj_succ. unfold Z.succ. rewrite inject_Z_plus. ring.
Qed.

Lemma get_byte_range (dataArray : list N) (i : nat) :
  Forall (fun b => (b <= 255)%N) dataArray -> 0 <= get_byte dataArray i <= 255.
Proof.
  intros HF. unfold get_byte.
  assert (Hb : (default 0%N (dataArray !! i) <= 255)%N).
  { destruct (dataArray !! i) as [b|] eqn:E; cbn [default]; [| lia].
    rewrite Forall_lookup in HF. by eapply HF. }
  split.
  - replace 0 with (inject_Z 0) by reflexivity. rewrite <- Zle_Qle. lia.
  - replace 255 with (inject_Z 255) by reflexivity. rewrite <- Zle_Qle. lia.
Qed.

(** X23.  One call of [draw] asks for the next frame, reads the spectrum and
    clears the canvas; when not playing it paints nothing more, and when
    playing it then paints exactly one bar for each bin, in the order of the
    bins. *)
Theorem draw_paints_one_bar_per_bin (canvas_width canvas_height : Q) (bufferLength : nat)
  (dataArray : list N) (playing : bool) (primaryColor : string) :
  let barWidth := canvas_width / inject_Z (Z.of_nat bufferLength) * 2.5 in
  draw canvas_width canvas_height bufferLength dataArray playing primaryColor
  = [requestAnimationFrame_draw; getByteFrequencyData;
     fillRect fade_fill 0 0 canvas_width canvas_height]
    ++ (if playing
        then bar_call canvas_height barWidth dataArray primaryColor <$> seq 0 bufferLength
        else [])
  /\ length (draw canvas_width canvas_height bufferLength dataArray playing primaryColor)
     = (3 + if playing then bufferLength else 0)%nat.
Proof.
  cbn zeta. unfold draw. destruct playing; cbn [negb].
  - rewrite bar_loop_spec. cbn [snd]. split; [reflexivity |].
    cbn [app length]. by rewrite length_fmap, length_seq.
  - done.
Qed.

Lemma draw_bar_lookup (canvas_width canvas_height : Q) (bufferLength : nat)
  (dataArray : list N) (primaryColor : string) (i : nat) (c : DrawCall) :
  draw canvas_width canvas_height bufferLength dataArray true primaryColor !! (3 + i)%nat
  = Some c ->
  (i < bufferLength)%nat
  /\ c = bar_call canvas_height (canvas_width / inject_Z (Z.of_nat bufferLength) * 2.5)
                  dataArray primaryColor i.
Proof.
  rewrite (proj1 (draw_paints_one_bar_per_bin _ _ _ _ _ _)).
  rewrite lookup_app_r by (cbn [length]; lia).
  replace (3 + i - length [requestAnimationFrame_draw; getByteFrequencyData;
                           fillRect fade_fill 0 0 canvas_width canvas_height])%nat
    with i by (cbn [length]; lia).
  rewrite list_lookup_fmap.
  destruct (seq 0 bufferLength !! i) as [j|] eqn:Ej; [| done].
  apply lookup_seq in Ej as [-> Hlt]. cbn. intros [= <-]. split; [lia | reflexivity].
Qed.

(** X24.  Every bar [draw] paints is centred on the middle of the canvas,
    has the height of its bin's byte divided by 1.5, so between 0 and 170,
    and starts [i * (barWidth + 1)] from the left for bin [i]: the bars keep
    their order and do not overlap. *)
Theorem bars_are_centred_and_bounded (canvas_width canvas_height : Q) (bufferLength : nat)
  (dataArray : list N) (primaryColor : string) (i : nat) (style : FillStyle) (x y w h : Q) :
  Forall (fun b => (b <= 255)%N) dataArray ->
  draw canvas_width canvas_height bufferLength dataArray true primaryColor !! (3 + i)%nat
  = Some (fillRect style x y w h) ->
  let barWidth := canvas_width / inject_Z (Z.of_nat bufferLength) * 2.5 in
  (i < bufferLength)%nat
  /\ h = get_byte dataArray i / 1.5
  /\ 0 <= h <= 170
  /\ y + h / 2 == canvas_height / 2
  /\ w = barWidth
  /\ x == inject_Z (Z.of_nat i) * (barWidth + 1).
Proof.
  intros HF Hi. cbn zeta.
  apply draw_bar_lookup in Hi as [Hlt Hc]. unfold bar_call in Hc.
  injection Hc as -> -> -> -> ->.
  pose proof (get_byte_range dataArray i HF) as Hb.
  assert (E : get_byte dataArray i == (get_byte dataArray i / 1.5) * 1.5) by field.
  split; [lia |]. split; [reflexivity |]. split; [split; lra |].
  split; [field |]. split; [reflexivity |]. apply bar_x_closed.
Qed.

Lemma bars_are_centred_and_bounded_witness :
  Forall (fun b => (b <= 255)%N) [255%N; 30%N]
  /\ 0 <= get_byte [255%N; 30%N] 1 / 1.5 <= 170.
Proof.
  assert (HF : Forall (fun b => (b <= 255)%N) [255%N; 30%N]).
  { repeat constructor; vm_compute; discriminate. }
  assert (Hd : draw 300 150 2 [255%N; 30%N] true "#f472b6" !! (3 + 1)%nat
               = Some (fillRect (gradient_fill 0 (150 - get_byte [255%N; 30%N] 1 / 1.5) 0 150
                                               "#f472b6")
                                (bar_x (300 / inject_Z (Z.of_nat 2) * 2.5) 1)
                                (150 / 2 - get_byte [255%N; 30%N] 1 / 1.5 / 2)
                                (300 / inject_Z (Z.of_nat 2) * 2.5)
                                (get_byte [255%N; 30%N] 1 / 1.5)))
    by (vm_compute; reflexivity).
  split; [exact HF |].
  exact (proj1 (proj2 (proj2 (bars_are_centred_and_bounded 300 150 2 [255%N; 30%N] "#f472b6"
                                1 _ _ _ _ _ HF Hd)))).
Defined.

(** X25.  The bars are 2.5 times as wide as an even split of the canvas
    would make them, so the bar of every bin from two fifths of the bins up
    starts at or beyond the right edge: the upper three fifths of the
    spectrum are never on the canvas. *)
Theorem high_bins_are_off_canvas (canvas_width canvas_height : Q) (bufferLength : nat)
  (dataArray : list N) (primaryColor : string) (i : nat) (style : FillStyle) (x y w h : Q) :
  0 < canvas_width ->
  (2 * bufferLength <= 5 * i)%nat ->
  draw canvas_width canvas_height bufferLength dataArray true primaryColor !! (3 + i)%nat
  = Some (fillRect style x y w h) ->
  canvas_width <= x.
Proof.
  intros HW Hi Hd.
  apply draw_bar_lookup in Hd as [Hlt Hc]. unfold bar_call in Hc.
  injection Hc as _ -> _ _ _.
  rewrite bar_x_closed.
  set (q := inject_Z (Z.of_nat i)). set (m := inject_Z (Z.of_nat bufferLength)).
  assert (Hm : 0 < m).
  { unfold m. replace 0 with (inject_Z 0) by reflexivity. rewrite <- Zlt_Qlt. lia. }
  assert (Hq : 2 * m <= 5 * q).
  { unfold m, q. replace 2 with (inject_Z 2) by reflexivity.
    replace 5 with (inject_Z 5) by reflexivity.
    rewrite <- !inject_Z_mult, <- Zle_Qle. lia. }
  set (u := canvas_width / m).
  assert (E : canvas_width == u * m) by (unfold u; field; lra).
  assert (Hu : 0 <= u).
  { unfold u. apply Qle_shift_div_l; [done | lra]. }
  assert (H1 : 0 <= u * (2.5 * q - m)) by (apply Qmult_le_0_compat; lra).
  assert (E1 : u * (2.5 * q - m) == q * (u * 2.5) - u * m) by ring.
  rewrite E1 in H1. rewrite E.
  assert (E2 : q * (u * 2.5 + 1) == q * (u * 2.5) + q) by ring.
  rewrite E2. lra.
Qed.

Lemma high_bins_are_off_canvas_witness :
  0 < 300 /\ (2 * 2 <= 5 * 1)%nat
  /\ 300 <= bar_x (300 / inject_Z (Z.of_nat 2) * 2.5) 1.
Proof.
  assert (HW : 0 < 300) by reflexivity.
  assert (Hi : (2 * 2 <= 5 * 1)%nat) by (vm_compute; lia).
  assert (Hd : draw 300 150 2 [255%N; 30%N] true "#f472b6" !! (3 + 1)%nat
               = Some (fillRect (gradient_fill 0 (150 - get_byte [255%N; 30%N] 1 / 1.5) 0 150
                                               "#f472b6")
                                (bar_x (300 / inject_Z (Z.of_nat 2) * 2.5) 1)
                                (150 / 2 - get_byte [255%N; 30%N] 1 / 1.5 / 2)
                                (300 / inject_Z (Z.of_nat 2) * 2.5)
                                (get_byte [255%N; 30%N] 1 / 1.5)))
    by (vm_compute; reflexivity).
  split; [exact HW | split; [exact Hi |]].
  exact (high_bins_are_off_canvas 300 150 2 [255%N; 30%N] "#f472b6" 1 _ _ _ _ _ HW Hi Hd).
Defined.
